(** * jirasearch: the retrieval-and-normalisation core of [communicator.go]

    A shallow embedding of the field catalog resolver ([GetCustomFields]),
    the value extractor ([GetValueFromField], [GetValue],
    [GetNestedMapKeyName]), the bug classifier ([IsBug]), the
    developer-of-record scan ([GetDeveloperNameFromLog]), the issue fetcher
    ([GetIssue]), the sub-task aggregator ([GetSubTasksForIssue]) and the
    search runner ([SearchIssues]), with the properties the specification
    states about them and further ones read off the code. *)

From Stdlib Require Import ZArith String Ascii List Bool Lia.
From stdpp Require Import base option list gmap strings.

Local Open Scope Z_scope.

(** ** Go values *)

(** A [float64] is carried as its 64-bit IEEE-754 pattern; the program never
    inspects a number, it only hands it to [fmt.Sprint]. *)
Definition float64 : Type := Z.

(** What [encoding/json] leaves in an [interface{}]: [nil], [bool],
    [float64], [string], [[]interface{}] or [map[string]interface{}].
    A map is kept as its list of bindings and read through [mapaccess] only:
    the program never ranges over a JSON object nor writes to one. *)
#[warnings="-register-all"]
Inductive json : Type :=
| JNull
| JBool (b : bool)
| JNumber (f : float64)
| JString (s : string)
| JArray (l : list json)
| JObject (m : list (string * json)).

Abbreviation object := (list (string * json)).

(** [v, ok := m[k]]: the binding of [k], if any. *)
Fixpoint mapaccess (m : object) (k : string) : option json :=
  match m with
  | [] => None
  | (k', v) :: m' => if String.eqb k' k then Some v else mapaccess m' k
  end.

(** [m[k]]: the binding of [k], or the zero value [nil] when there is none. *)
Definition index (m : object) (k : string) : json :=
  default JNull (mapaccess m k).

(** ** Panics *)

Inductive panic : Type :=
| InterfaceConversion   (* a forced type assertion [x.(T)] on another type *)
| IndexOutOfRange.      (* [a[0]] on an empty slice *)

(** What running a piece of Go code comes to: a value, or a panic. *)
Inductive outcome (A : Type) : Type :=
| Ok (a : A)
| Panic (p : panic).
Arguments Ok {A} a.
Arguments Panic {A} p.

(** A panic ends the computation: what follows is not run. *)
Definition and_then {A B : Type} (r : outcome A) (k : A → outcome B) : outcome B :=
  match r with Ok a => k a | Panic p => Panic p end.

Notation "'let?' x := r 'in' k" := (and_then r (λ x, k))
  (at level 10, x pattern, r at level 100, k at level 200).

(** Forced type assertions. *)
Definition assert_bool (v : json) : outcome bool :=
  match v with JBool b => Ok b | _ => Panic InterfaceConversion end.
Definition assert_string (v : json) : outcome string :=
  match v with JString s => Ok s | _ => Panic InterfaceConversion end.
Definition assert_array (v : json) : outcome (list json) :=
  match v with JArray l => Ok l | _ => Panic InterfaceConversion end.
Definition assert_map (v : json) : outcome object :=
  match v with JObject m => Ok m | _ => Panic InterfaceConversion end.

(** [a[0]]. *)
Definition first_element (a : list json) : outcome json :=
  match a with x :: _ => Ok x | [] => Panic IndexOutOfRange end.

(** ** The [strings] package, on byte strings

    [strings.ToLower] lower-cases every Unicode letter of a string, by the
    tables of the [unicode] package. It is outside the repository and is
    taken as a parameter, [ToLower]: the program is modelled over any
    lower-casing function, and a property that needs more of it says what.
    On a string of ASCII bytes [strings.ToLower] is [ToLowerASCII], which
    turns the bytes [A-Z] into [a-z]. [Replace s "," "" (-1)] removes every
    comma byte. *)
Module strings.

Class Lowering : Type := ToLower : string → string.

Definition isUpper (c : ascii) : bool :=
  let n := nat_of_ascii c in (65 <=? n)%nat && (n <=? 90)%nat.

Definition toLower (c : ascii) : ascii :=
  if isUpper c then ascii_of_nat (nat_of_ascii c + 32) else c.

Fixpoint ToLowerASCII (s : string) : string :=
  match s with
  | EmptyString => EmptyString
  | String c s' => String (toLower c) (ToLowerASCII s')
  end.

(** Every byte of the string is below [utf8.RuneSelf]. *)
Fixpoint isASCII (s : string) : bool :=
  match s with
  | EmptyString => true
  | String c s' => (nat_of_ascii c <? 128)%nat && isASCII s'
  end.

Fixpoint RemoveCommas (s : string) : string :=
  match s with
  | EmptyString => EmptyString
  | String c s' =>
      if Ascii.eqb c "," then RemoveCommas s' else String c (RemoveCommas s')
  end.

(** Case-insensitive comparison, letter by letter: two bytes agree when they
    are equal or when one is an upper-case letter and the other the same
    letter in lower case. *)
Definition sameLetter (a b : ascii) : bool :=
  Ascii.eqb a b
  || (isUpper a && (nat_of_ascii b =? nat_of_ascii a + 32)%nat)
  || (isUpper b && (nat_of_ascii a =? nat_of_ascii b + 32)%nat).

Fixpoint EqualIgnoringCase (s t : string) : bool :=
  match s, t with
  | EmptyString, EmptyString => true
  | String a s', String b t' => sameLetter a b && EqualIgnoringCase s' t'
  | _, _ => false
  end.

End strings.

(** ** The [time] package, for the one layout and the one format used

    [Parse] follows [time.Parse] with the layout
    ["2006-01-02T15:04:05.999-0700"]: a four-digit year, two-digit month and
    day, an hour of one or two digits, two-digit minute and second, an
    optional fraction of any number of digits, and a numeric zone; then no
    text may remain and the day must exist in that month (the range checks
    are those of Go 1.20 and later). On an error Go returns the zero [Time]
    together with the error. A [Time] is kept as the
    wall clock of the zone it was parsed in, which is what [Format] shows. *)
Module time.

Record Time : Type := mkTime {
  Year : Z; Month : Z; Day : Z;
  Hour : Z; Minute : Z; Second : Z; Nanosecond : Z;
  ZoneOffset : Z
}.

(** [Time{}]: January 1, year 1, 00:00:00 UTC. *)
Definition zero : Time := mkTime 1 1 1 0 0 0 0 0.

Definition isDigit (c : ascii) : bool :=
  let n := nat_of_ascii c in (48 <=? n)%nat && (n <=? 57)%nat.

Definition digit (c : ascii) : Z := Z.of_nat (nat_of_ascii c) - 48.

(** [getnum s fixed]: two digits, or a single one when [fixed] is false. *)
Definition getnum (s : string) (fixed : bool) : option (Z * string) :=
  match s with
  | String a rest =>
      if isDigit a then
        match rest with
        | String b rest' =>
            if isDigit b then Some (digit a * 10 + digit b, rest')
            else if fixed then None else Some (digit a, rest)
        | EmptyString => if fixed then None else Some (digit a, rest)
        end
      else None
  | EmptyString => None
  end.

(** [skip value prefix] for a one-byte literal of the layout. *)
Definition skip (c : ascii) (s : string) : option string :=
  match s with
  | String a rest => if Ascii.eqb a c then Some rest else None
  | EmptyString => None
  end.

(** [stdLongYear]: exactly four digits. *)
Definition longYear (s : string) : option (Z * string) :=
  match s with
  | String a (String b (String c (String d rest))) =>
      if isDigit a && isDigit b && isDigit c && isDigit d
      then Some (((digit a * 10 + digit b) * 10 + digit c) * 10 + digit d, rest)
      else None
  | _ => None
  end.

Definition commaOrPeriod (c : ascii) : bool :=
  Ascii.eqb c "." || Ascii.eqb c ",".

(** The leading digits of [s] and what follows them. *)
Fixpoint leadingDigits (s : string) : list ascii * string :=
  match s with
  | String c s' =>
      if isDigit c then let '(ds, r) := leadingDigits s' in (c :: ds, r)
      else ([], s)
  | EmptyString => ([], s)
  end.

(** [parseNanoseconds]: at most nine digits count, scaled to nanoseconds. *)
Definition parseNanoseconds (ds : list ascii) : Z :=
  let ds9 := take 9 ds in
  fold_left (λ acc c, acc * 10 + digit c) ds9 0 * 10 ^ (9 - Z.of_nat (length ds9)).

(** [stdFracSecond9]: nothing is consumed unless a separator and a digit
    follow. *)
Definition fracSecond (s : string) : Z * string :=
  match s with
  | String p (String d rest) =>
      if commaOrPeriod p && isDigit d then
        let '(ds, r) := leadingDigits (String d rest) in (parseNanoseconds ds, r)
      else (0, s)
  | _ => (0, s)
  end.

(** [stdNumTZ]: a sign, two digits of hours and two of minutes. *)
Definition numTZ (s : string) : option (Z * string) :=
  match s with
  | String sign (String h1 (String h2 (String m1 (String m2 rest)))) =>
      '(hr, _) ← getnum (String h1 (String h2 EmptyString)) true;
      '(mm, _) ← getnum (String m1 (String m2 EmptyString)) true;
      if (24 <? hr) || (60 <? mm) then None
      else
        let zoneOffset := (hr * 60 + mm) * 60 in
        if Ascii.eqb sign "+" then Some (zoneOffset, rest)
        else if Ascii.eqb sign "-" then Some (- zoneOffset, rest)
        else None
  | _ => None
  end.

Definition isLeap (year : Z) : bool :=
  (year mod 4 =? 0) && (negb (year mod 100 =? 0) || (year mod 400 =? 0)).

Definition daysIn (month year : Z) : Z :=
  if month =? 2 then (if isLeap year then 29 else 28)
  else if (month =? 4) || (month =? 6) || (month =? 9) || (month =? 11) then 30
  else 31.

Definition parse (value : string) : option Time :=
  '(year, value) ← longYear value;
  value ← skip "-" value;
  '(month, value) ← getnum value true;
  guard (1 <= month <= 12);;
  value ← skip "-" value;
  '(day, value) ← getnum value true;
  value ← skip "T" value;
  '(hour, value) ← getnum value false;
  guard (hour < 24);;
  value ← skip ":" value;
  '(min, value) ← getnum value true;
  guard (min < 60);;
  value ← skip ":" value;
  '(sec, value) ← getnum value true;
  guard (sec < 60);;
  let '(nsec, value) := fracSecond value in
  '(zoneOffset, value) ← numTZ value;
  guard (value = EmptyString);;
  guard (1 <= day <= daysIn month year);;
  Some (mkTime year month day hour min sec nsec zoneOffset).

Inductive ParseError : Type := parseError.

(** [time.Parse("2006-01-02T15:04:05.999-0700", value)]. *)
Definition Parse (value : string) : Time * option ParseError :=
  match parse value with
  | Some t => (t, None)
  | None => (zero, Some parseError)
  end.

Definition two (n : Z) : string :=
  String (ascii_of_nat (Z.to_nat (48 + n / 10 mod 10)))
    (String (ascii_of_nat (Z.to_nat (48 + n mod 10))) EmptyString).

Definition shortMonth (month : Z) : string :=
  nth (Z.to_nat (month - 1))
    ["Jan"; "Feb"; "Mar"; "Apr"; "May"; "Jun";
     "Jul"; "Aug"; "Sep"; "Oct"; "Nov"; "Dec"]%string EmptyString.

(** [t.Format("02/Jan/06")]: day, month abbreviation, year modulo 100. *)
Definition Format (t : Time) : string :=
  two (Day t) +:+ "/" +:+ shortMonth (Month t) +:+ "/" +:+ two (Z.abs (Year t) mod 100).

End time.


Section Program.

Context {L : strings.Lowering}.

(** ** The bug classifier *)

(** [IsBug] (lines 194-197). *)
Definition IsBug (issueType : string) : bool :=
  String.eqb (strings.ToLower issueType) "bug"
  || String.eqb (strings.ToLower issueType) "functional bug"
  || String.eqb (strings.ToLower issueType) "production issue".

(** ** The value extractor *)

(** [GetNestedMapKeyName] (lines 260-275). *)
Definition GetNestedMapKeyName (fieldName : string) : string :=
  if String.eqb (strings.ToLower fieldName) "assignee"
     || String.eqb (strings.ToLower fieldName) "reporter"
  then "displayName"
  else if String.eqb (strings.ToLower fieldName) "issuetype"
          || String.eqb (strings.ToLower fieldName) "status"
          || String.eqb (strings.ToLower fieldName) "priority"
  then "name"
  else if String.eqb (strings.ToLower fieldName) "timetracking"
  then "originalEstimate"
  else "value".

Section Extractor.

(** How [fmt.Sprint] prints a [float64] (the shortest [%g] form); it is
    outside the repository and no property below depends on it. *)
Variable Sprint_float64 : float64 → string.

(** [fmt.Sprint val] for a [val] that is neither a slice, a map nor [nil]. *)
Definition Sprint (val : json) : string :=
  match val with
  | JString s => s
  | JBool true => "true"
  | JBool false => "false"
  | JNumber f => Sprint_float64 f
  | _ => EmptyString
  end.

(** [GetValue] (lines 241-258). *)
Definition GetValue (val : json) (fieldName : string) : outcome string :=
  match val with
  | JArray arrayVal =>
      let? elem := first_element arrayVal in
      let? elemMap := assert_map elem in
      assert_string (index elemMap "value")
  | JObject mapVal =>
      match mapaccess mapVal (GetNestedMapKeyName fieldName) with
      | Some tmpResult => assert_string tmpResult
      | None => Ok EmptyString
      end
  | JNull => Ok EmptyString
  | _ => Ok (Sprint val)
  end.

(** [GetValueFromField] (lines 223-239). The error of [time.Parse] is
    discarded, as in [dateVal, _ := time.Parse(...)]. *)
Definition GetValueFromField (issue : object) (field : string) : outcome string :=
  match mapaccess issue "fields" with
  | Some val =>
      let? fieldsMap := assert_map val in
      match mapaccess fieldsMap field with
      | Some val =>
          if String.eqb (strings.ToLower field) "created" then
            let? str := assert_string val in
            let '(dateVal, _) := time.Parse str in
            Ok (time.Format dateVal)
          else
            let? v := GetValue val field in
            Ok (strings.RemoveCommas v)
      | None => Ok "N/A"%string
      end
  | None => Ok "N/A"%string
  end.

End Extractor.

(** ** The developer-of-record scan *)

(** The inner loop of [GetDeveloperNameFromLog] (lines 206-212): the value
    of [developerName] when the loop over [items] is left. *)
Fixpoint scanItems (mapHistory : object) (items : list json)
    (developerName : string) : outcome string :=
  match items with
  | [] => Ok developerName
  | item :: items' =>
      let? itemMap := assert_map item in
      match index itemMap "toString" with
      | JString strInDevelopment =>
          if String.eqb strInDevelopment "In Development" then
            let? author := assert_map (index mapHistory "author") in
            assert_string (index author "displayName")
          else scanItems mapHistory items' developerName
      | _ => scanItems mapHistory items' developerName
      end
  end.

(** The outer loop (lines 203-217). *)
Fixpoint scanHistories (histories : list json) (developerName : string)
    : outcome string :=
  match histories with
  | [] => Ok developerName
  | history :: histories' =>
      let? mapHistory := assert_map history in
      let? items := assert_array (index mapHistory "items") in
      let? developerName := scanItems mapHistory items developerName in
      if negb (String.eqb developerName EmptyString) then Ok developerName
      else scanHistories histories' developerName
  end.

(** [GetDeveloperNameFromLog] (lines 199-221). *)
Definition GetDeveloperNameFromLog (issue : object) : outcome string :=
  let? changelog := assert_map (index issue "changelog") in
  let? histories := assert_array (index changelog "histories") in
  scanHistories histories EmptyString.

(** ** The field catalog resolver *)

(** One iteration of the loop of [GetCustomFields] (lines 97-114) on the
    maps [result] and [staticFields]. The look-up of line 99 uses the name
    as it is, every other one the lower-cased name. *)
Definition resolveField (st : gmap string string * gmap string string)
    (field : object) : outcome (gmap string string * gmap string string) :=
  let '(result, staticFields) := st in
  let? custom := assert_bool (index field "custom") in
  let? name := assert_string (index field "name") in
  if custom then
    match result !! name with
    | None =>
        match staticFields !! strings.ToLower name with
        | None =>
            let? id := assert_string (index field "id") in
            Ok (<[strings.ToLower name := strings.ToLower id]> result, staticFields)
        | Some _ => Ok (result, staticFields)
        end
    | Some _ => Ok (result, staticFields)
    end
  else
    match result !! strings.ToLower name with
    | Some _ => Ok (delete (strings.ToLower name) result, staticFields)
    | None =>
        let? id := assert_string (index field "id") in
        Ok (result, <[strings.ToLower name := strings.ToLower id]> staticFields)
    end.

Fixpoint resolveFields (fields : list object)
    (st : gmap string string * gmap string string)
    : outcome (gmap string string * gmap string string) :=
  match fields with
  | [] => Ok st
  | field :: fields' =>
      let? st' := resolveField st field in
      resolveFields fields' st'
  end.

(** [GetCustomFields] (lines 85-117), from the decoded response [fields] to
    the map sent on [customFieldChannel]. *)
Definition GetCustomFields (fields : list object) : outcome (gmap string string) :=
  let? st := resolveFields fields (∅, ∅) in
  Ok st.1.

(** ** The sub-task aggregator *)

(** Modelled from the spec: the struct [SubTask] is declared outside
    [communicator.go]; section 3 gives it four display strings. *)
Record SubTask : Type := mkSubTask {
  Type_ : string;
  Name : string;
  SubTaskAssigneeName : string;
  TotalHours : string
}.

(** Modelled from the spec: the struct [JiraIssue] is declared outside
    [communicator.go]; section 3 gives it the raw issue, the requested field
    names, the sub-tasks and the assignee name. *)
Record JiraIssue : Type := mkJiraIssue {
  Data : object;
  Fields : list string;
  SubTasks : list SubTask;
  AssigneeName : string
}.

(** The interface [Communicator] (lines 13-17). An implementation talks to
    the network, so a call takes the state [C] of the communicator and of
    what it talks to, and returns the next one with the response body. *)
Class Communicator (C : Type) : Type :=
  CreateRequestAndGetResponse :
    C → string → option (gmap string string) → string * C.

(** A Go [int] of 64 bits: [++] wraps around. *)
Definition int_wrap (z : Z) : Z := (z + 2 ^ 63) mod 2 ^ 64 - 2 ^ 63.

Section Aggregator.

Variable Sprint_float64 : float64 → string.

(** [json.Unmarshal(body, &responseResult)] on a nil
    [map[string]interface{}]: the decoded object, or the nil map, which
    reads as the empty one, when [body] is not a JSON object (the error is
    dropped). The decoder is outside the repository. *)
Variable Unmarshal : string → object.

(** The type [Configuration] is declared outside [communicator.go]; the
    functions below pass it on without reading it. *)
Variable Configuration : Type.

Context {C : Type} `{Communicator C}.

(** [GetIssue] (lines 142-160). *)
Definition GetIssue (config : Configuration) (issueId : string)
    (includeChangeLog : bool) (communicator : C) : object * C :=
  let getIssueUrl :=
    if includeChangeLog
    then "/rest/api/2/issue/" +:+ issueId +:+ "?expand=changelog"
    else "/rest/api/2/issue/" +:+ issueId in
  let '(body, communicator) :=
    CreateRequestAndGetResponse communicator getIssueUrl None in
  (Unmarshal body, communicator).

(** The loop over [subTasks] (lines 171-181), on the slice [result], the
    counter behind [totalRestCalls] and the communicator. *)
Fixpoint fetchSubTasks (config : Configuration) (subTasks : list json)
    (result : list SubTask) (totalRestCalls : Z) (communicator : C)
    : outcome (list SubTask * Z * C) :=
  match subTasks with
  | [] => Ok (result, totalRestCalls, communicator)
  | subTask :: subTasks' =>
      let totalRestCalls := int_wrap (totalRestCalls + 1) in
      let? subTaskMap := assert_map subTask in
      let? subTaskId := assert_string (index subTaskMap "id") in
      let '(subTaskIssue, communicator) :=
        GetIssue config subTaskId false communicator in
      let? assignee := GetValueFromField Sprint_float64 subTaskIssue "assignee" in
      let? issueType := GetValueFromField Sprint_float64 subTaskIssue "issuetype" in
      let? name := GetValueFromField Sprint_float64 subTaskIssue "summary" in
      let? totalHours := GetValueFromField Sprint_float64 subTaskIssue "timetracking" in
      let currentSubTask := mkSubTask issueType name assignee totalHours in
      fetchSubTasks config subTasks' (result ++ [currentSubTask])
        totalRestCalls communicator
  end.

(** [GetSubTasksForIssue] (lines 162-192): the issue sent on
    [finalIssueChannel], the counter and the communicator afterwards. *)
Definition GetSubTasksForIssue (config : Configuration) (issue : JiraIssue)
    (includeChangeLog : bool) (totalRestCalls : Z) (communicator : C)
    : outcome (JiraIssue * Z * C) :=
  let? issueId := assert_string (index (Data issue) "id") in
  let totalRestCalls := int_wrap (totalRestCalls + 1) in
  let '(parent, communicator) :=
    GetIssue config issueId includeChangeLog communicator in
  let? fields := assert_map (index parent "fields") in
  let? subTasks := assert_array (index fields "subtasks") in
  let? (result, totalRestCalls, communicator) :=
    fetchSubTasks config subTasks [] totalRestCalls communicator in
  let issue := mkJiraIssue (Data issue) (Fields issue) result (AssigneeName issue) in
  let? parentIssueType := GetValueFromField Sprint_float64 parent "issuetype" in
  if IsBug parentIssueType then
    let? developerName := GetDeveloperNameFromLog parent in
    Ok (mkJiraIssue (Data issue) (Fields issue) (SubTasks issue) developerName,
        totalRestCalls, communicator)
  else Ok (issue, totalRestCalls, communicator).

End Aggregator.

(** ** The search runner *)

(** [strings.Join elems sep]. *)
Fixpoint Join (elems : list string) (sep : string) : string :=
  match elems with
  | [] => EmptyString
  | [e] => e
  | e :: elems' => e +:+ sep +:+ Join elems' sep
  end.

Section Search.

Variable Unmarshal : string → object.
Variable Configuration : Type.
Context {C : Type} `{Communicator C}.

(** The loop of [SearchIssues] (lines 135-138): the issues sent on
    [issueRetrievedChannel], in order, and whether the loop ended or
    panicked on an element that is not an object. What was sent before a
    panic stays sent. *)
Fixpoint sendIssues (issues : list json) (processedFields : list string)
    (sent : list JiraIssue) : list JiraIssue * outcome unit :=
  match issues with
  | [] => (sent, Ok tt)
  | issue :: issues' =>
      match assert_map issue with
      | Ok data =>
          let jiraIssue := mkJiraIssue data processedFields [] EmptyString in
          sendIssues issues' processedFields (sent ++ [jiraIssue])
      | Panic p => (sent, Panic p)
      end
  end.

(** [SearchIssues] (lines 119-140): what was sent on the channel, and the
    communicator afterwards or the panic. *)
Definition SearchIssues (config : Configuration) (jql : string)
    (processedFields : list string) (communicator : C)
    : list JiraIssue * outcome C :=
  let params : gmap string string :=
    <["maxResults" := "1000"]>
      (<["fields" := Join processedFields ","]> (<["jql" := jql]> ∅)) in
  let '(body, communicator) :=
    CreateRequestAndGetResponse communicator "/rest/api/2/search" (Some params) in
  let responseResult := Unmarshal body in
  match assert_array (index responseResult "issues") with
  | Ok issues =>
      let '(sent, r) := sendIssues issues processedFields [] in
      (sent, let? _ := r in Ok communicator)
  | Panic p => ([], Panic p)
  end.

End Search.

(** * Vocabulary of the statements *)

(** ** Shapes of raw values *)

(** The raw values that [GetValue] turns into a string: [nil], a scalar, an
    array whose first element is an object with a string under "value", an
    object without the nested key of the field, or with a string under it. *)
Inductive flat (fieldName : string) : json → Prop :=
| flat_null : flat fieldName JNull
| flat_bool (b : bool) : flat fieldName (JBool b)
| flat_number (f : float64) : flat fieldName (JNumber f)
| flat_string (s : string) : flat fieldName (JString s)
| flat_array (m : object) (s : string) (rest : list json) :
    mapaccess m "value" = Some (JString s) →
    flat fieldName (JArray (JObject m :: rest))
| flat_object_without (m : object) :
    mapaccess m (GetNestedMapKeyName fieldName) = None →
    flat fieldName (JObject m)
| flat_object_with (m : object) (s : string) :
    mapaccess m (GetNestedMapKeyName fieldName) = Some (JString s) →
    flat fieldName (JObject m).

(** An issue is well shaped for a field when it has no "fields" member, or
    "fields" is an object that either lacks the field or holds for it a
    string (for "created") or a [flat] value (for any other field). *)
Definition well_shaped (issue : object) (field : string) : Prop :=
  mapaccess issue "fields" = None
  ∨ ∃ fieldsMap, mapaccess issue "fields" = Some (JObject fieldsMap)
      ∧ (mapaccess fieldsMap field = None
         ∨ ∃ val, mapaccess fieldsMap field = Some val
             ∧ if String.eqb (strings.ToLower field) "created"
               then ∃ s, val = JString s
               else flat field val).

(** A formatter of numbers for the examples, none of which has a number. *)
Definition Sprint_example : float64 → string := λ _, "0"%string.

(** ** Field definitions *)

(** One entry of the response of [/rest/api/2/field], as far as the
    resolver reads it. *)
Record FieldDef : Type := mkFieldDef {
  custom : bool;
  name : string;
  id : string
}.

(** The decoded object [field] carries the definition [d]. *)
Definition is_field (field : object) (d : FieldDef) : Prop :=
  mapaccess field "custom" = Some (JBool (custom d))
  ∧ mapaccess field "name" = Some (JString (name d))
  ∧ mapaccess field "id" = Some (JString (id d)).

Definition encode_field (d : FieldDef) : object :=
  [("id", JString (id d)); ("name", JString (name d));
   ("custom", JBool (custom d))]%string.

(** No custom field of [defs] has the lower-cased name [n]. *)
Definition no_custom_named (n : string) (defs : list FieldDef) : Prop :=
  Forall (λ d, custom d = true → strings.ToLower (name d) ≠ n) defs.

(** No standard field of [defs] has the lower-cased name [n]. *)
Definition no_standard_named (n : string) (defs : list FieldDef) : Prop :=
  Forall (λ d, custom d = false → strings.ToLower (name d) ≠ n) defs.

(** One iteration of the resolver on a definition: what [resolveField]
    computes on an object that carries it. *)
Definition resolveDef (st : gmap string string * gmap string string)
    (d : FieldDef) : gmap string string * gmap string string :=
  let n := strings.ToLower (name d) in
  if custom d then
    match st.1 !! name d, st.2 !! n with
    | None, None => (<[n := strings.ToLower (id d)]> st.1, st.2)
    | _, _ => st
    end
  else
    match st.1 !! n with
    | Some _ => (delete n st.1, st.2)
    | None => (st.1, <[n := strings.ToLower (id d)]> st.2)
    end.

(** The name [n] is claimed by a standard field: it is in [staticFields]
    and not in [result]. *)
Definition claimed (n : string)
    (st : gmap string string * gmap string string) : Prop :=
  st.1 !! n = None ∧ is_Some (st.2 !! n).

(** ** Change histories *)

(** One entry of a change history: the display name of its author and, for
    each item in order, its [toString] target if it has one. *)
Record History : Type := mkHistory {
  author : string;
  items : list (option string)
}.

Definition is_item (item : json) (target : option string) : Prop :=
  ∃ m, item = JObject m
    ∧ match mapaccess m "toString" with
      | Some (JString s) => target = Some s
      | _ => target = None
      end.

Definition is_history (history : json) (h : History) : Prop :=
  ∃ m its a,
    history = JObject m
    ∧ mapaccess m "items" = Some (JArray its)
    ∧ Forall2 is_item its (items h)
    ∧ mapaccess m "author" = Some (JObject a)
    ∧ mapaccess a "displayName" = Some (JString (author h)).

(** The issue carries the change history [hs] under
    [changelog.histories]. *)
Definition is_changelog (issue : object) (hs : list History) : Prop :=
  ∃ changelog histories,
    mapaccess issue "changelog" = Some (JObject changelog)
    ∧ mapaccess changelog "histories" = Some (JArray histories)
    ∧ Forall2 is_history histories hs.

(** One of the targets is "In Development". *)
Definition targets_In_Development (targets : list (option string)) : bool :=
  existsb (λ target, match target with
                     | Some s => String.eqb s "In Development"
                     | None => false
                     end) targets.

(** The entry has an item whose target is "In Development". *)
Definition enters_development (h : History) : bool :=
  targets_In_Development (items h).

(** The scan as the specification words it: the author of the first entry
    that has an item with target "In Development", else the empty string. *)
Definition first_In_Development_author (hs : list History) : string :=
  match find enters_development hs with
  | Some h => author h
  | None => EmptyString
  end.

(** The same, passing over the entries whose author has an empty display
    name. *)
Definition first_named_In_Development_author (hs : list History) : string :=
  match find (λ h, enters_development h
                   && negb (String.eqb (author h) EmptyString)) hs with
  | Some h => author h
  | None => EmptyString
  end.

(** ** What the statements ask of [strings.ToLower]

    Most statements hold of any lower-casing function. The ones that do not
    name one of the three facts below as a hypothesis; Go's function has all
    three. *)

(** On a string of ASCII bytes, [ToLower] lowers the bytes [A-Z]: this is
    the ASCII branch of [strings.ToLower]. *)
Definition lowers_ASCII : Prop :=
  ∀ s, strings.isASCII s = true → strings.ToLower s = strings.ToLowerASCII s.

(** Lower-casing a lower-cased string changes nothing: the lower-case form
    of a letter is a lower-case letter. *)
Definition lowers_once : Prop :=
  ∀ s, strings.ToLower (strings.ToLower s) = strings.ToLower s.

(** Two strings that differ in the case of ASCII letters only have the same
    lower-casing: they decode to the same runes but for those letters, and
    [strings.ToLower] maps rune by rune. *)
Definition lowers_alike : Prop :=
  ∀ s t, strings.EqualIgnoringCase s t = true →
         strings.ToLower s = strings.ToLower t.

End Program.

(** The lower-casing of the examples, all of which are ASCII. *)
Definition ASCII_lowering : strings.Lowering := strings.ToLowerASCII.

(** ** An example remote

    The body of a response is the path that was asked for, decoding a body
    gives the issue behind the path, and the communicator counts the
    requests it served. Issue 10 is a bug with the sub-tasks 11 and 12, moved
    to "In Development" by Alice in the second entry of its history. *)
Definition example_parent : object :=
  [("id", JString "10");
   ("fields", JObject
      [("issuetype", JObject [("name", JString "Bug")]);
       ("subtasks", JArray [JObject [("id", JString "11")];
                            JObject [("id", JString "12")]])]);
   ("changelog", JObject
      [("histories", JArray
          [JObject [("author", JObject [("displayName", JString "Bob")]);
                    ("items", JArray [JObject [("toString", JString "Open")]])];
           JObject [("author", JObject [("displayName", JString "Alice")]);
                    ("items", JArray [JObject [("field", JString "status");
                                               ("toString", JString "In Development")]])]])])
  ]%string.

Definition example_subtask (key summary : string) : object :=
  [("id", JString key);
   ("fields", JObject
      [("summary", JString summary);
       ("issuetype", JObject [("name", JString "Sub-task")]);
       ("assignee", JObject [("displayName", JString "Carol")])])]%string.

Definition example_Unmarshal (body : string) : object :=
  if String.eqb body "/rest/api/2/issue/10?expand=changelog" then example_parent
  else if String.eqb body "/rest/api/2/issue/11" then example_subtask "11" "Write, test"
  else if String.eqb body "/rest/api/2/issue/12" then example_subtask "12" "Review"
  else [].

#[local] Instance example_communicator : Communicator nat :=
  λ served apiPath params, (apiPath, S served).

Definition example_issue : JiraIssue :=
  mkJiraIssue [("id", JString "10")]%string ["summary"; "issuetype"]%string [] "Dave".

Section Vocabulary.

Context {L : strings.Lowering}.

(** ** Requests and sub-tasks *)

(** A communicator that also keeps the paths it was asked for, in order. *)
Definition logged {C : Type} (comm : Communicator C)
    : Communicator (C * list string) :=
  λ st apiPath params,
    let '(body, c) := comm st.1 apiPath params in (body, (c, st.2 ++ [apiPath])).

(** The element [subTask] of "subtasks" is an object with the string [key]
    under "id". *)
Definition has_id (subTask : json) (key : string) : Prop :=
  ∃ m, subTask = JObject m ∧ index m "id" = JString key.

(** The four display strings of [sub] are what the extractor gives on
    [subTaskIssue]. *)
Definition extracted_from (Sprint_float64 : float64 → string)
    (subTaskIssue : object) (sub : SubTask) : Prop :=
  GetValueFromField Sprint_float64 subTaskIssue "assignee"
    = Ok (SubTaskAssigneeName sub)
  ∧ GetValueFromField Sprint_float64 subTaskIssue "issuetype" = Ok (Type_ sub)
  ∧ GetValueFromField Sprint_float64 subTaskIssue "summary" = Ok (Name sub)
  ∧ GetValueFromField Sprint_float64 subTaskIssue "timetracking"
    = Ok (TotalHours sub).

(** The path [GetIssue] asks for. *)
Definition issue_path (issueId : string) (includeChangeLog : bool) : string :=
  if includeChangeLog
  then "/rest/api/2/issue/" +:+ issueId +:+ "?expand=changelog"
  else "/rest/api/2/issue/" +:+ issueId.

(** The string has no comma. *)
Definition comma_free (s : string) : Prop :=
  ¬ In ","%char (list_ascii_of_string s).

(** Every key and every value of the map is in lower case. *)
Definition lower_case_map (m : gmap string string) : Prop :=
  ∀ k v, m !! k = Some v → strings.ToLower k = k ∧ strings.ToLower v = v.

(** The entry [k ↦ v] is the lower-cased name and id of a custom field
    among [fields]. *)
Definition from_custom_field (fields : list object) (k v : string) : Prop :=
  ∃ field n i,
    In field fields
    ∧ index field "custom" = JBool true
    ∧ index field "name" = JString n
    ∧ index field "id" = JString i
    ∧ k = strings.ToLower n ∧ v = strings.ToLower i.

(** An example search response for the example remote. *)
Definition example_search_Unmarshal (body : string) : object :=
  if String.eqb body "/rest/api/2/search"
  then [("issues", JArray [JObject [("id", JString "10")];
                           JObject [("id", JString "40")]])]%string
  else example_Unmarshal body.

(** Issue 30 of the example remote, asked for without its history: a bug
    without sub-tasks and without "changelog". *)
Definition example_Unmarshal_plain (body : string) : object :=
  if String.eqb body "/rest/api/2/issue/30"
  then [("id", JString "30");
        ("fields", JObject [("issuetype", JObject [("name", JString "Bug")]);
                            ("subtasks", JArray [])])]%string
  else if String.eqb body "/rest/api/2/issue/40"
  then [("id", JString "40");
        ("fields", JObject [("summary", JString "Untyped");
                            ("subtasks", JArray [])])]%string
  else example_search_Unmarshal body.

(** The issue [SearchIssues] sends for the element [data] of "issues". *)
Definition found (processedFields : list string) (data : object) : JiraIssue :=
  mkJiraIssue data processedFields [] EmptyString.

(** The parameters [SearchIssues] passes with its request. *)
Definition search_params (jql : string) (processedFields : list string)
    : gmap string string :=
  <["maxResults" := "1000"]>
    (<["fields" := Join processedFields ","]> (<["jql" := jql]> ∅)).

End Vocabulary.

(** * Properties *)

(** ** Strings *)

Section StringFacts.
Import strings.

Lemma nat_of_ascii_inj (a b : ascii) : nat_of_ascii a = nat_of_ascii b → a = b.
Proof.
  intros E. rewrite <- (ascii_nat_embedding a), <- (ascii_nat_embedding b).
  now rewrite E.
Qed.

Lemma isUpper_spec (c : ascii) :
  isUpper c = true ↔ (65 ≤ nat_of_ascii c ≤ 90)%nat.
Proof.
  unfold isUpper. cbv zeta.
  rewrite andb_true_iff, !Nat.leb_le. tauto.
Qed.

Lemma toLower_nat (c : ascii) :
  nat_of_ascii (toLower c) =
  if isUpper c then (nat_of_ascii c + 32)%nat else nat_of_ascii c.
Proof.
  unfold toLower. destruct (isUpper c) eqn:U; [|done].
  apply isUpper_spec in U. apply nat_ascii_embedding. lia.
Qed.

Lemma toLower_eq_iff (a b : ascii) :
  toLower a = toLower b ↔ sameLetter a b = true.
Proof.
  unfold sameLetter.
  rewrite !orb_true_iff, !andb_true_iff, !Nat.eqb_eq, !isUpper_spec.
  rewrite Ascii.eqb_eq.
  split.
  - intros E. apply (f_equal nat_of_ascii) in E. rewrite !toLower_nat in E.
    destruct (isUpper a) eqn:Ua, (isUpper b) eqn:Ub;
      try apply isUpper_spec in Ua; try apply isUpper_spec in Ub.
    + left; left. apply nat_of_ascii_inj. lia.
    + left; right. split; [done | lia].
    + right. split; [done | lia].
    + left; left. now apply nat_of_ascii_inj.
  - intros Hs. apply nat_of_ascii_inj. rewrite !toLower_nat.
    destruct (isUpper a) eqn:Ua, (isUpper b) eqn:Ub;
      try apply isUpper_spec in Ua; try apply isUpper_spec in Ub;
      try (assert (¬ (65 ≤ nat_of_ascii a ≤ 90)%nat)
             by (rewrite <- isUpper_spec; congruence));
      try (assert (¬ (65 ≤ nat_of_ascii b ≤ 90)%nat)
             by (rewrite <- isUpper_spec; congruence));
      destruct Hs as [[-> | [? ?]] | [? ?]]; lia.
Qed.

Lemma ToLowerASCII_eq_iff (s t : string) :
  ToLowerASCII s = ToLowerASCII t ↔ EqualIgnoringCase s t = true.
Proof.
  revert t. induction s as [|a s IH]; intros [|b t]; simpl; try easy.
  rewrite andb_true_iff, <- IH, <- toLower_eq_iff.
  split; [intros [= -> ->]; done | intros [-> ->]; done].
Qed.

Lemma EqualIgnoringCase_refl (s : string) : EqualIgnoringCase s s = true.
Proof. now apply ToLowerASCII_eq_iff. Qed.

Lemma toLower_idemp (c : ascii) : toLower (toLower c) = toLower c.
Proof.
  apply nat_of_ascii_inj. rewrite (toLower_nat (toLower c)).
  destruct (isUpper (toLower c)) eqn:U; [|done].
  apply isUpper_spec in U. rewrite toLower_nat in U |- *.
  destruct (isUpper c) eqn:Uc; [apply isUpper_spec in Uc; lia|].
  assert (¬ (65 ≤ nat_of_ascii c ≤ 90)%nat)
    by (rewrite <- isUpper_spec; congruence).
  lia.
Qed.

Lemma ToLowerASCII_idemp (s : string) : ToLowerASCII (ToLowerASCII s) = ToLowerASCII s.
Proof. induction s as [|c s IH]; simpl; [done|]. now rewrite toLower_idemp, IH. Qed.



Lemma ASCII_lowers_ASCII : @lowers_ASCII ASCII_lowering.
Proof. now intros s _. Qed.

Lemma ASCII_lowers_once : @lowers_once ASCII_lowering.
Proof. exact ToLowerASCII_idemp. Qed.

Lemma ASCII_lowers_alike : @lowers_alike ASCII_lowering.
Proof. intros s t E. now apply ToLowerASCII_eq_iff. Qed.

End StringFacts.

(** ** The bug classifier *)

Lemma IsBug_ASCII {L : strings.Lowering} (issueType : string) :
  lowers_ASCII → strings.isASCII issueType = true →
  IsBug issueType = @IsBug ASCII_lowering issueType.
Proof. intros HL Ha. unfold IsBug. now rewrite (HL _ Ha). Qed.


(** ** The value extractor *)

Section ExtractorFacts.

Context {L : strings.Lowering}.

Variable Sprint_float64 : float64 → string.

Lemma index_Some (m : object) (k : string) (v : json) :
  mapaccess m k = Some v → index m k = v.
Proof. unfold index. now intros ->. Qed.

Lemma GetValue_flat (val : json) (fieldName : string) :
  (∃ s, GetValue Sprint_float64 val fieldName = Ok s) ↔ flat fieldName val.
Proof.
  split.
  - intros [s Hs].
    destruct val as [| b | f | t | l | m];
      [constructor | constructor | constructor | constructor | | ].
    + destruct l as [|[| | | | |e] rest]; try discriminate.
      simpl in Hs. unfold index in Hs.
      destruct (mapaccess e "value") as [[| | |v| |]|] eqn:E; try discriminate.
      now apply flat_array with v.
    + simpl in Hs.
      destruct (mapaccess m (GetNestedMapKeyName fieldName))
        as [[| | |v| |]|] eqn:E; try discriminate.
      * now apply flat_object_with with v.
      * now apply flat_object_without.
  - intros F. destruct F as [| b | f | t | m t rest E | m E | m t E]; simpl;
      try (eexists; reflexivity).
    + rewrite (index_Some _ _ _ E). now eexists.
    + rewrite E. now eexists.
    + rewrite E. now eexists.
Qed.

(** C3 (as amended). [GetValueFromField] returns a string exactly on the
    issues that are well shaped for the field; on every other issue (a
    "fields" member that is not an object, an empty array, an array whose
    first element is not an object with a string under "value", an object
    with the nested key bound to something else than a string, a "created"
    that is not a string) it panics. *)
Theorem GetValueFromField_returns_iff_well_shaped (issue : object) (field : string) :
  ((∃ s, GetValueFromField Sprint_float64 issue field = Ok s)
   ↔ well_shaped issue field)
  ∧ ((∃ p, GetValueFromField Sprint_float64 issue field = Panic p)
     ↔ ¬ well_shaped issue field).
Proof.
  assert (R : (∃ s, GetValueFromField Sprint_float64 issue field = Ok s)
              ↔ well_shaped issue field).
  { unfold GetValueFromField, well_shaped.
    destruct (mapaccess issue "fields") as [val|] eqn:Ef.
    2:{ split; [now left | intros _; now eexists]. }
    destruct val as [| b | f | t | l | fieldsMap];
      try (split; [intros [s Hs]; discriminate
                  | intros [? | (? & [= ] & _)]; discriminate]).
    simpl. destruct (mapaccess fieldsMap field) as [val|] eqn:Ev.
    2:{ split; [intros _; right; exists fieldsMap; split; [done | now left]
               | intros _; now eexists]. }
    destruct (String.eqb (strings.ToLower field) "created") eqn:Ec.
    - split.
      + intros [s Hs]. right. exists fieldsMap. split; [done|]. right.
        exists val. split; [done|].
        destruct val; try discriminate. now eexists.
      + intros [? | (fm & [= <-] & [? | (v & Hv & Hshape)])]; try congruence.
        destruct Hshape as [t ->].
        assert (val = JString t) as -> by congruence. simpl.
        destruct (time.Parse t). now eexists.
    - split.
      + intros [s Hs]. right. exists fieldsMap. split; [done|]. right.
        exists val. split; [done|]. apply GetValue_flat.
        destruct (GetValue Sprint_float64 val field); [now eexists | discriminate].
      + intros [? | (fm & [= <-] & [? | (v & Hv & Hshape)])]; try congruence.
        assert (v = val) as -> by congruence.
        apply GetValue_flat in Hshape as [t ->]. simpl. now eexists. }
  split; [exact R|]. rewrite <- R.
  destruct (GetValueFromField Sprint_float64 issue field) as [s|p].
  - split; [intros [? ?]; discriminate | intros N; destruct N; now eexists].
  - split; [intros _ [? ?]; discriminate | intros _; now eexists].
Qed.

(** C4. When the issue has no "fields" member, or its "fields" object has
    no binding for the field, [GetValueFromField] returns "N/A". *)
Theorem GetValueFromField_absent (issue : object) (field : string) :
  mapaccess issue "fields" = None
  ∨ (∃ fieldsMap, mapaccess issue "fields" = Some (JObject fieldsMap)
       ∧ mapaccess fieldsMap field = None) →
  GetValueFromField Sprint_float64 issue field = Ok "N/A"%string.
Proof.
  unfold GetValueFromField. intros [-> | (fieldsMap & -> & E)]; [done|].
  simpl. now rewrite E.
Qed.

(** C5 (as amended). For a field that is "created" up to letter case and
    whose raw value is a string, [GetValueFromField] never fails: when the
    string does not parse with the layout, the error is dropped and the zero
    time is shown, "01/Jan/01"; when it parses, the result is the day in two
    digits, the month abbreviation and the year modulo 100 in two digits. *)
Theorem GetValueFromField_created (issue fieldsMap : object) (field raw : string) :
  strings.ToLower field = "created"%string →
  mapaccess issue "fields" = Some (JObject fieldsMap) →
  mapaccess fieldsMap field = Some (JString raw) →
  (time.parse raw = None →
   GetValueFromField Sprint_float64 issue field = Ok "01/Jan/01"%string)
  ∧ (∀ t, time.parse raw = Some t →
       GetValueFromField Sprint_float64 issue field =
       Ok (time.two (time.Day t) +:+ "/" +:+ time.shortMonth (time.Month t)
           +:+ "/" +:+ time.two (Z.abs (time.Year t) mod 100))).
Proof.
  intros Hc Hf Hv. unfold GetValueFromField. rewrite Hf. simpl.
  rewrite Hv, Hc. simpl. unfold time.Parse.
  split; [intros -> | intros t ->]; reflexivity.
Qed.

(** C10 (as amended). For a field other than "created" (up to letter case)
    whose raw value is an object without the nested key that
    [GetNestedMapKeyName] selects for the field, [GetValueFromField] returns
    the empty string. *)
Theorem GetValueFromField_object_without_key
    (issue fieldsMap mapVal : object) (field : string) :
  strings.ToLower field ≠ "created"%string →
  mapaccess issue "fields" = Some (JObject fieldsMap) →
  mapaccess fieldsMap field = Some (JObject mapVal) →
  mapaccess mapVal (GetNestedMapKeyName field) = None →
  GetValueFromField Sprint_float64 issue field = Ok EmptyString.
Proof.
  intros Hc Hf Hv Hk. unfold GetValueFromField. rewrite Hf. simpl.
  rewrite Hv. apply String.eqb_neq in Hc. rewrite Hc. simpl. now rewrite Hk.
Qed.

End ExtractorFacts.

(** ** The developer-of-record scan *)

Section ScanFacts.

(** The inner loop leaves with the author's name at the first item that
    targets "In Development", and with the name it started from if there is
    none. *)
Lemma scanItems_spec (mapHistory a : object) (au : string) (its : list json)
    (targets : list (option string)) (developerName : string) :
  mapaccess mapHistory "author" = Some (JObject a) →
  mapaccess a "displayName" = Some (JString au) →
  Forall2 is_item its targets →
  scanItems mapHistory its developerName =
  Ok (if targets_In_Development targets then au else developerName).
Proof.
  intros Ha Hd F. induction F as [|item target its targets I F IH]; [done|].
  destruct I as (m & -> & Ht). simpl. unfold index at 1.
  destruct (mapaccess m "toString") as [[| | |s| |]|]; subst target; simpl;
    try exact IH.
  destruct (String.eqb s "In Development"); simpl; [|exact IH].
  rewrite (index_Some _ _ _ Ha). cbn [assert_map and_then].
  now rewrite (index_Some _ _ _ Hd).
Qed.

Lemma scanHistories_spec (histories : list json) (hs : list History) :
  Forall2 is_history histories hs →
  scanHistories histories EmptyString = Ok (first_named_In_Development_author hs).
Proof.
  intros F. induction F as [|history h histories hs I F IH]; [done|].
  destruct I as (m & its & a & -> & Hi & Fi & Ha & Hd).
  cbn [scanHistories assert_map and_then].
  rewrite (index_Some _ _ _ Hi). cbn [assert_array and_then].
  rewrite (scanItems_spec _ _ _ _ _ _ Ha Hd Fi).
  unfold first_named_In_Development_author, enters_development in *.
  cbn [and_then find].
  destruct (targets_In_Development (items h)); cbn [andb].
  - destruct (String.eqb (author h) EmptyString) eqn:E; cbn [negb]; [|done].
    apply String.eqb_eq in E. rewrite E. exact IH.
  - exact IH.
Qed.

Lemma first_named_when_named (hs : list History) :
  Forall (λ h, author h ≠ EmptyString) hs →
  first_named_In_Development_author hs = first_In_Development_author hs.
Proof.
  unfold first_named_In_Development_author, first_In_Development_author.
  induction 1 as [|h hs N _ IH]; [done|]. cbn [find].
  apply String.eqb_neq in N. rewrite N. cbn [negb]. rewrite andb_true_r.
  destruct (enters_development h); [done | exact IH].
Qed.

(** C6 (as amended). On an issue that carries the change history [hs],
    [GetDeveloperNameFromLog] returns the author display name of the first
    entry, in the given order, that has an item with target "In Development"
    and an author whose display name is not empty; it returns the empty
    string when there is no such entry. When no author has an empty display
    name, that is the author of the first entry with such an item. *)
Theorem GetDeveloperNameFromLog_first_named (issue : object) (hs : list History) :
  is_changelog issue hs →
  GetDeveloperNameFromLog issue = Ok (first_named_In_Development_author hs)
  ∧ (Forall (λ h, author h ≠ EmptyString) hs →
     GetDeveloperNameFromLog issue = Ok (first_In_Development_author hs)).
Proof.
  intros (changelog & histories & Hc & Hh & F).
  assert (R : GetDeveloperNameFromLog issue
              = Ok (first_named_In_Development_author hs)).
  { unfold GetDeveloperNameFromLog.
    rewrite (index_Some _ _ _ Hc). cbn [assert_map and_then].
    rewrite (index_Some _ _ _ Hh). cbn [assert_array and_then].
    now apply scanHistories_spec. }
  split; [exact R|]. intros N. now rewrite R, first_named_when_named.
Qed.

End ScanFacts.

(** ** The field catalog resolver *)

Section ResolverFacts.

Context {L : strings.Lowering}.

Implicit Types (st : gmap string string * gmap string string).
Implicit Types (d : FieldDef) (defs : list FieldDef) (n : string).

Lemma resolveField_is_field st (field : object) d :
  is_field field d → resolveField st field = Ok (resolveDef st d).
Proof.
  intros (Hc & Hn & Hi). destruct st as [r s].
  unfold resolveField, resolveDef.
  rewrite (index_Some _ _ _ Hc), (index_Some _ _ _ Hn), (index_Some _ _ _ Hi).
  cbn [assert_bool assert_string and_then fst snd].
  destruct (custom d).
  - destruct (r !! name d); [done|].
    now destruct (s !! strings.ToLower (name d)).
  - now destruct (r !! strings.ToLower (name d)).
Qed.

Lemma resolveFields_is_field (fields : list object) defs st :
  Forall2 is_field fields defs →
  resolveFields fields st = Ok (fold_left resolveDef defs st).
Proof.
  intros F. revert st.
  induction F as [|field d fields defs I F IH]; intros st; [done|].
  cbn [resolveFields fold_left]. rewrite (resolveField_is_field _ _ _ I).
  apply IH.
Qed.

Lemma GetCustomFields_is_field (fields : list object) defs :
  Forall2 is_field fields defs →
  GetCustomFields fields = Ok (fold_left resolveDef defs (∅, ∅)).1.
Proof.
  intros F. unfold GetCustomFields.
  now rewrite (resolveFields_is_field _ _ _ F).
Qed.

Lemma is_field_encode d : is_field (encode_field d) d.
Proof. now repeat split. Qed.

(** A name stays out of the catalog as long as no custom field carries it. *)
Lemma resolveDef_absent st d n :
  (custom d = true → strings.ToLower (name d) ≠ n) →
  st.1 !! n = None → (resolveDef st d).1 !! n = None.
Proof.
  intros Hd Hn. unfold resolveDef. destruct (custom d).
  - destruct (st.1 !! name d), (st.2 !! strings.ToLower (name d)); try done.
    cbn [fst]. rewrite lookup_insert_ne; [done | now apply Hd].
  - destruct (st.1 !! strings.ToLower (name d)); [|done].
    cbn [fst]. now apply lookup_delete_None; right.
Qed.

Lemma resolveDefs_absent defs st n :
  no_custom_named n defs →
  st.1 !! n = None → (fold_left resolveDef defs st).1 !! n = None.
Proof.
  intros F. revert st. induction F as [|d defs Hd F IH]; intros st Hn; [done|].
  cbn [fold_left]. apply IH. now apply resolveDef_absent.
Qed.

(** A name claimed by a standard field stays claimed, and out of the
    catalog, whatever follows. *)
Lemma resolveDef_claimed st d n : claimed n st → claimed n (resolveDef st d).
Proof.
  intros [Hr Hs]. unfold claimed, resolveDef. destruct (custom d).
  - destruct (st.1 !! name d) eqn:E1; [done|].
    destruct (st.2 !! strings.ToLower (name d)) eqn:E2; [done|].
    cbn [fst snd]. split; [|done].
    rewrite lookup_insert_ne; [done|]. intros E.
    rewrite E in E2. rewrite E2 in Hs. now destruct Hs.
  - destruct (st.1 !! strings.ToLower (name d)); cbn [fst snd].
    + split; [|done]. now apply lookup_delete_None; right.
    + split; [done|]. rewrite lookup_insert. now case_decide.
Qed.

Lemma resolveDefs_claimed defs st n :
  claimed n st → claimed n (fold_left resolveDef defs st).
Proof.
  revert st. induction defs as [|d defs IH]; intros st Hc; [done|].
  cbn [fold_left]. now apply IH, resolveDef_claimed.
Qed.

(** Right after a standard field the catalog has no entry for its name, and
    the name is claimed if the catalog had none before either. *)
Lemma resolveDef_standard st d :
  custom d = false →
  (resolveDef st d).1 !! strings.ToLower (name d) = None
  ∧ (st.1 !! strings.ToLower (name d) = None →
     claimed (strings.ToLower (name d)) (resolveDef st d)).
Proof.
  intros Hc. unfold claimed, resolveDef. rewrite Hc.
  destruct (st.1 !! strings.ToLower (name d)) eqn:E; cbn [fst snd].
  - split; [apply lookup_delete_eq | done].
  - split; [done|]. intros _. split; [done|]. rewrite lookup_insert_eq. by eexists.
Qed.

(** C1 (as amended). If the sequence has a standard field such that no
    custom field of the same lower-cased name comes before it, or none comes
    after it, then the resolver returns a catalog with no entry for that
    lower-cased name. This covers one standard and one custom field of a
    common name in either order. *)
Theorem GetCustomFields_standard_suppresses
    (fields : list object) (pre post : list FieldDef) (d : FieldDef) :
  Forall2 is_field fields (pre ++ d :: post) →
  custom d = false →
  no_custom_named (strings.ToLower (name d)) pre
  ∨ no_custom_named (strings.ToLower (name d)) post →
  ∃ catalog, GetCustomFields fields = Ok catalog
    ∧ catalog !! strings.ToLower (name d) = None.
Proof.
  intros F Hc Hcase. eexists. split; [exact (GetCustomFields_is_field _ _ F)|].
  rewrite fold_left_app. cbn [fold_left].
  set (st := fold_left resolveDef pre (∅, ∅)).
  destruct (resolveDef_standard st d Hc) as [Hafter Hclaim].
  destruct Hcase as [Hpre | Hpost].
  - apply resolveDefs_claimed, Hclaim.
    apply resolveDefs_absent; [exact Hpre | apply lookup_empty].
  - now apply resolveDefs_absent.
Qed.

(** What the look-up of line 99 was meant for: when the names are already
    in lower case, the first custom field of a name that no standard field
    carries keeps the entry. *)
Lemma resolveDef_unclaimed st d n :
  (custom d = false → strings.ToLower (name d) ≠ n) →
  st.2 !! n = None → (resolveDef st d).2 !! n = None.
Proof.
  intros Hd Hn. unfold resolveDef. destruct (custom d).
  - now destruct (st.1 !! name d), (st.2 !! strings.ToLower (name d)).
  - destruct (st.1 !! strings.ToLower (name d)); [done|].
    cbn [snd]. rewrite lookup_insert_ne; [done | now apply Hd].
Qed.

Lemma resolveDefs_unclaimed defs st n :
  no_standard_named n defs →
  st.2 !! n = None → (fold_left resolveDef defs st).2 !! n = None.
Proof.
  intros F. revert st. induction F as [|d defs Hd F IH]; intros st Hn; [done|].
  cbn [fold_left]. apply IH. now apply resolveDef_unclaimed.
Qed.

Lemma resolveDef_kept st d n (v : string) :
  (custom d = false → strings.ToLower (name d) ≠ n) →
  (custom d = true → strings.ToLower (name d) = n → name d = n) →
  st.1 !! n = Some v → (resolveDef st d).1 !! n = Some v.
Proof.
  intros Hs Hl Hn. unfold resolveDef. destruct (custom d).
  - destruct (st.1 !! name d) eqn:E1; [done|].
    destruct (st.2 !! strings.ToLower (name d)); [done|]. cbn [fst].
    rewrite lookup_insert_ne; [done|]. intros E.
    rewrite (Hl eq_refl E) in E1. congruence.
  - destruct (st.1 !! strings.ToLower (name d)); [|done]. cbn [fst].
    rewrite lookup_delete_ne; [done | now apply Hs].
Qed.

Lemma resolveDefs_kept defs st n (v : string) :
  no_standard_named n defs →
  Forall (λ d, custom d = true → strings.ToLower (name d) = n → name d = n) defs →
  st.1 !! n = Some v → (fold_left resolveDef defs st).1 !! n = Some v.
Proof.
  intros F. revert st.
  induction F as [|d defs Hd F IH]; intros st Hl Hn; [done|].
  inversion_clear Hl as [|? ? Hl1 Hl2]. cbn [fold_left].
  apply IH; [done|]. now apply resolveDef_kept.
Qed.

Lemma first_custom_wins_in_lower_case
    (fields : list object) (pre post : list FieldDef) (c : FieldDef) :
  Forall2 is_field fields (pre ++ c :: post) →
  custom c = true →
  strings.ToLower (name c) = name c →
  no_custom_named (name c) pre →
  no_standard_named (name c) (pre ++ post) →
  Forall (λ d, custom d = true → strings.ToLower (name d) = name c →
               name d = name c) post →
  ∃ catalog, GetCustomFields fields = Ok catalog
    ∧ catalog !! name c = Some (strings.ToLower (id c)).
Proof.
  intros F Hc Hl Hpre Hstd Hpost.
  apply Forall_app in Hstd as [Hstd1 Hstd2].
  eexists. split; [exact (GetCustomFields_is_field _ _ F)|].
  rewrite fold_left_app. cbn [fold_left].
  set (st := fold_left resolveDef pre (∅, ∅)).
  assert (H1 : st.1 !! name c = None)
    by (apply resolveDefs_absent; [done | apply lookup_empty]).
  assert (H2 : st.2 !! name c = None)
    by (apply resolveDefs_unclaimed; [done | apply lookup_empty]).
  apply resolveDefs_kept; [done | done |].
  unfold resolveDef. rewrite Hc, Hl, H1, H2. cbn [fst]. apply lookup_insert_eq.
Qed.

End ResolverFacts.

(** ** The sub-task aggregator *)

Lemma int_wrap_add (a b : Z) : int_wrap (int_wrap a + b) = int_wrap (a + b).
Proof.
  unfold int_wrap. f_equal.
  replace ((a + 2 ^ 63) mod 2 ^ 64 - 2 ^ 63 + b + 2 ^ 63)
    with ((a + 2 ^ 63) mod 2 ^ 64 + b) by lia.
  rewrite Zplus_mod_idemp_l. f_equal. lia.
Qed.

Lemma int_wrap_idemp (a : Z) : int_wrap (int_wrap a) = int_wrap a.
Proof.
  rewrite <- (Z.add_0_r (int_wrap a)) at 1. rewrite int_wrap_add. f_equal. lia.
Qed.

Lemma int_wrap_small (a : Z) : - 2 ^ 63 ≤ a < 2 ^ 63 → int_wrap a = a.
Proof. intros Ha. unfold int_wrap. rewrite Z.mod_small; lia. Qed.

Section AggregatorFacts.

Context {L : strings.Lowering}.

Variable Sprint_float64 : float64 → string.
Variable Unmarshal : string → object.
Variable Configuration : Type.
Context {C : Type} `{Communicator C}.

#[local] Abbreviation fetch :=
  (fetchSubTasks Sprint_float64 Unmarshal Configuration).
#[local] Abbreviation aggregate :=
  (GetSubTasksForIssue Sprint_float64 Unmarshal Configuration).

(** The loop adds one to the counter for each sub-task. *)
Lemma fetchSubTasks_counter (config : Configuration) (subTasks : list json)
    (result result' : list SubTask) (total total' : Z) (comm comm' : C) :
  fetch config subTasks result total comm = Ok (result', total', comm') →
  int_wrap total = total →
  total' = int_wrap (total + Z.of_nat (length subTasks)).
Proof.
  revert result total comm.
  induction subTasks as [|subTask subTasks IH]; intros result total comm Hrun Hw.
  - injection Hrun as <- <- <-. now rewrite Z.add_0_r.
  - cbn [fetchSubTasks] in Hrun.
    destruct (assert_map subTask) as [m|]; [|discriminate].
    cbn [and_then] in Hrun.
    destruct (assert_string (index m "id")) as [key|]; [|discriminate].
    cbn [and_then] in Hrun.
    destruct (GetIssue Unmarshal Configuration config key false comm)
      as [subTaskIssue comm1].
    repeat match type of Hrun with
           | and_then ?r _ = _ =>
               destruct r; [cbn [and_then] in Hrun | discriminate]
           end.
    apply IH in Hrun; [|apply int_wrap_idemp].
    rewrite Hrun, int_wrap_add. f_equal. rewrite length_cons. lia.
Qed.

(** What a completed call went through. *)
Lemma GetSubTasksForIssue_inv (config : Configuration) (issue issue' : JiraIssue)
    (includeChangeLog : bool) (total total' : Z) (comm comm' : C) :
  aggregate config issue includeChangeLog total comm = Ok (issue', total', comm') →
  ∃ issueId fields subTasks parentIssueType comm1,
    let parent :=
      (GetIssue Unmarshal Configuration config issueId includeChangeLog comm).1 in
    index (Data issue) "id" = JString issueId
    ∧ index parent "fields" = JObject fields
    ∧ index fields "subtasks" = JArray subTasks
    ∧ fetch config subTasks [] (int_wrap (total + 1)) comm1
      = Ok (SubTasks issue', total', comm')
    ∧ GetValueFromField Sprint_float64 parent "issuetype" = Ok parentIssueType
    ∧ if IsBug parentIssueType
      then GetDeveloperNameFromLog parent = Ok (AssigneeName issue')
      else AssigneeName issue' = AssigneeName issue.
Proof.
  intros Hrun. unfold GetSubTasksForIssue in Hrun.
  destruct (index (Data issue) "id") as [| | |issueId| |] eqn:Eid;
    try discriminate.
  cbn [assert_string and_then] in Hrun.
  destruct (GetIssue Unmarshal Configuration config issueId includeChangeLog comm)
    as [parent comm1] eqn:Eg.
  destruct (index parent "fields") as [| | | | |fields] eqn:Ef; try discriminate.
  cbn [assert_map and_then] in Hrun.
  destruct (index fields "subtasks") as [| | | |subTasks|] eqn:Es;
    try discriminate.
  cbn [assert_array and_then] in Hrun.
  destruct (fetchSubTasks _ _ _ config subTasks [] _ comm1)
    as [[[result total2] comm2]|] eqn:Eloop; [|discriminate].
  cbn [and_then] in Hrun.
  destruct (GetValueFromField Sprint_float64 parent "issuetype")
    as [parentIssueType|] eqn:Et; [|discriminate].
  cbn [and_then] in Hrun.
  exists issueId, fields, subTasks, parentIssueType, comm1.
  rewrite Eg. cbn [fst]. rewrite Et.
  destruct (IsBug parentIssueType).
  - destruct (GetDeveloperNameFromLog parent) as [developerName|];
      [|discriminate].
    cbn [and_then] in Hrun. injection Hrun as <- <- <-. now repeat split.
  - injection Hrun as <- <- <-. now repeat split.
Qed.

(** C8. When a call of [GetSubTasksForIssue] completes, the assignee name
    of the issue it sends is the result of the developer-of-record scan on
    the parent if the extracted "issuetype" of the parent is a bug, and is
    the assignee name the issue came with if it is not. *)
Theorem GetSubTasksForIssue_assignee (config : Configuration)
    (issue issue' : JiraIssue) (includeChangeLog : bool) (total total' : Z)
    (comm comm' : C) :
  aggregate config issue includeChangeLog total comm = Ok (issue', total', comm') →
  ∃ issueId parentIssueType,
    let parent :=
      (GetIssue Unmarshal Configuration config issueId includeChangeLog comm).1 in
    index (Data issue) "id" = JString issueId
    ∧ GetValueFromField Sprint_float64 parent "issuetype" = Ok parentIssueType
    ∧ (IsBug parentIssueType = true →
       GetDeveloperNameFromLog parent = Ok (AssigneeName issue'))
    ∧ (IsBug parentIssueType = false →
       AssigneeName issue' = AssigneeName issue).
Proof.
  intros Hrun.
  destruct (GetSubTasksForIssue_inv _ _ _ _ _ _ _ _ Hrun)
    as (issueId & fields & subTasks & ty & comm1 & Hid & _ & _ & _ & Hty & Hbug).
  exists issueId, ty. cbv zeta. repeat split; [done | done | |];
    intros Eb; now rewrite Eb in Hbug.
Qed.

(** C9. When a call of [GetSubTasksForIssue] completes on a parent that
    lists [n] sub-tasks, the counter has gone up by [1 + n] in the
    arithmetic of a Go [int]: it is the old value plus [1 + n] wrapped to 64
    bits, hence exactly the old value plus [1 + n] when that fits. *)
Theorem GetSubTasksForIssue_counts (config : Configuration)
    (issue issue' : JiraIssue) (includeChangeLog : bool) (total total' : Z)
    (comm comm' : C) :
  aggregate config issue includeChangeLog total comm = Ok (issue', total', comm') →
  ∃ issueId fields subTasks,
    let parent :=
      (GetIssue Unmarshal Configuration config issueId includeChangeLog comm).1 in
    let n := Z.of_nat (length subTasks) in
    index (Data issue) "id" = JString issueId
    ∧ index parent "fields" = JObject fields
    ∧ index fields "subtasks" = JArray subTasks
    ∧ total' = int_wrap (total + (1 + n))
    ∧ (- 2 ^ 63 ≤ total + (1 + n) < 2 ^ 63 → total' = total + (1 + n)).
Proof.
  intros Hrun.
  destruct (GetSubTasksForIssue_inv _ _ _ _ _ _ _ _ Hrun)
    as (issueId & fields & subTasks & ty & comm1 & Hid & Hf & Hs & Hloop & _).
  exists issueId, fields, subTasks. cbv zeta.
  apply fetchSubTasks_counter in Hloop; [|apply int_wrap_idemp].
  rewrite int_wrap_add in Hloop.
  assert (E : total' = int_wrap (total + (1 + Z.of_nat (length subTasks))))
    by (rewrite Hloop; f_equal; lia).
  repeat split; [done | done | done | done |].
  intros Hfit. now rewrite E, int_wrap_small.
Qed.

End AggregatorFacts.

(** * The statements at concrete inputs *)

Section Examples.

#[local] Existing Instance ASCII_lowering.

(** ** The field catalog resolver *)

(** C2 (the code at the failing input). Two custom fields named "Severity":
    the entry of the first is replaced by the second, because line 99 looks
    "Severity" up in a map whose keys are in lower case. *)
Theorem GetCustomFields_second_custom_replaces_first :
  GetCustomFields
    [encode_field (mkFieldDef true "Severity" "cf_1");
     encode_field (mkFieldDef true "Severity" "cf_2")]
  = Ok {[ "severity"%string := "cf_2"%string ]}.
Proof. vm_compute. reflexivity. Qed.


(** C1 (counterexample). A custom "Severity", then the standard
    "Severity", then another custom "Severity": the standard field removes
    the entry of the first one without claiming the name, so the catalog ends
    with the name mapped to the id of the second custom field. *)
Lemma GetCustomFields_custom_after_removal :
  let s := mkFieldDef false "Severity" "severity" in
  let c := mkFieldDef true "Severity" "cf_2" in
  let defs := [mkFieldDef true "Severity" "cf_1"; s; c] in
  custom s = false ∧ custom c = true
  ∧ strings.ToLower (name s) = strings.ToLower (name c)
  ∧ ∃ catalog, GetCustomFields (encode_field <$> defs) = Ok catalog
      ∧ catalog !! strings.ToLower (name c) = Some (id c).
Proof.
  cbv zeta. repeat split. eexists. split; vm_compute; reflexivity.
Qed.

(** C1 (witness). The two orders of the specification's example: a custom
    and a standard "Severity". *)
Lemma GetCustomFields_standard_suppresses_Severity :
  (∃ catalog,
      GetCustomFields [encode_field (mkFieldDef true "Severity" "cf_10");
                       encode_field (mkFieldDef false "Severity" "severity")]
      = Ok catalog ∧ catalog !! "severity"%string = None)
  ∧ (∃ catalog,
      GetCustomFields [encode_field (mkFieldDef false "Severity" "severity");
                       encode_field (mkFieldDef true "Severity" "cf_10")]
      = Ok catalog ∧ catalog !! "severity"%string = None).
Proof.
  split.
  - apply (GetCustomFields_standard_suppresses (L:=ASCII_lowering) _
             [mkFieldDef true "Severity" "cf_10"] []
             (mkFieldDef false "Severity" "severity")).
    + repeat constructor.
    + reflexivity.
    + right. constructor.
  - apply (GetCustomFields_standard_suppresses (L:=ASCII_lowering) _
             [] [mkFieldDef true "Severity" "cf_10"]
             (mkFieldDef false "Severity" "severity")).
    + repeat constructor.
    + reflexivity.
    + left. constructor.
Defined.

(** ** The value extractor *)

(** C3 (counterexample). The four shapes the claim lists make
    [GetValueFromField] panic: an empty array, an array of non-objects, an
    object whose nested member is not a string, and a "fields" member that
    is not an object. *)
Lemma GetValueFromField_panics :
  GetValueFromField Sprint_example
    [("fields", JObject [("labels", JArray [])])] "labels"
  = Panic IndexOutOfRange
  ∧ GetValueFromField Sprint_example
      [("fields", JObject [("labels", JArray [JString "ui"])])] "labels"
    = Panic InterfaceConversion
  ∧ GetValueFromField Sprint_example
      [("fields", JObject [("assignee", JObject [("displayName", JNull)])])]
      "assignee"
    = Panic InterfaceConversion
  ∧ GetValueFromField Sprint_example [("fields", JString "none")] "summary"
    = Panic InterfaceConversion.
Proof. repeat split. Qed.

(** C4 (witness). An issue without "fields", and one whose "fields" lacks
    the field. *)
Lemma GetValueFromField_absent_example :
  GetValueFromField Sprint_example [("id", JString "10")] "assignee"
  = Ok "N/A"%string
  ∧ GetValueFromField Sprint_example
      [("fields", JObject [("summary", JString "Crash")])] "assignee"
    = Ok "N/A"%string.
Proof.
  split.
  - apply (GetValueFromField_absent (L:=ASCII_lowering) Sprint_example). left. reflexivity.
  - apply (GetValueFromField_absent (L:=ASCII_lowering) Sprint_example). right.
    exists [("summary", JString "Crash")]%string. split; reflexivity.
Defined.

(** C5 (counterexample). A "created" that does not parse: the call returns
    the zero date instead of failing. *)
Lemma GetValueFromField_created_unparsed :
  time.parse "yesterday" = None
  ∧ GetValueFromField Sprint_example
      [("fields", JObject [("created", JString "yesterday")])] "created"
    = Ok "01/Jan/01"%string.
Proof. split; reflexivity. Qed.

(** C5 (witness). The specification's example. *)
Lemma GetValueFromField_created_example :
  GetValueFromField Sprint_example
    [("fields", JObject [("created", JString "2023-03-05T10:15:30.000+0000")])]
    "created"
  = Ok "05/Mar/23"%string.
Proof.
  apply (proj2 (GetValueFromField_created (L:=ASCII_lowering) Sprint_example
                  [("fields", JObject
                      [("created", JString "2023-03-05T10:15:30.000+0000")])]%string
                  [("created", JString "2023-03-05T10:15:30.000+0000")]%string
                  "created" "2023-03-05T10:15:30.000+0000"
                  eq_refl eq_refl eq_refl)
               (time.mkTime 2023 3 5 10 15 30 0 0)).
  vm_compute. reflexivity.
Defined.

(** C10 (counterexample). A "created" whose raw value is an object without
    "value": the call panics on [val.(string)]. *)
Lemma GetValueFromField_created_object :
  let issue := [("fields", JObject [("created", JObject [])])]%string in
  mapaccess issue "fields" = Some (JObject [("created", JObject [])]%string)
  ∧ mapaccess [("created", JObject [])]%string "created" = Some (JObject [])
  ∧ mapaccess [] (GetNestedMapKeyName "created") = None
  ∧ GetValueFromField Sprint_example issue "created" = Panic InterfaceConversion.
Proof. repeat split. Qed.

(** C10 (witness). An assignee object without "displayName". *)
Lemma GetValueFromField_object_without_key_example :
  GetValueFromField Sprint_example
    [("fields", JObject [("assignee", JObject [("name", JString "carol")])])]
    "assignee"
  = Ok EmptyString.
Proof.
  apply (GetValueFromField_object_without_key (L:=ASCII_lowering) Sprint_example _
           [("assignee", JObject [("name", JString "carol")])]%string
           [("name", JString "carol")]%string).
  - discriminate.
  - reflexivity.
  - reflexivity.
  - reflexivity.
Defined.

(** ** The developer-of-record scan *)

(** C6 (counterexample). The first entry that enters development has an
    author with an empty display name; the scan goes on and returns the
    author of the second. *)
Lemma GetDeveloperNameFromLog_passes_over_unnamed :
  let entry (who : string) :=
    JObject [("author", JObject [("displayName", JString who)]);
             ("items", JArray [JObject [("toString", JString "In Development")]])]
  in
  let issue := [("changelog", JObject [("histories", JArray [entry ""; entry "Bob"])])] in
  let hs := [mkHistory "" [Some "In Development"];
             mkHistory "Bob" [Some "In Development"]]%string in
  is_changelog issue hs
  ∧ first_In_Development_author hs = EmptyString
  ∧ GetDeveloperNameFromLog issue = Ok "Bob"%string.
Proof.
  cbv zeta. split; [|split; reflexivity].
  eexists _, _. split; [reflexivity|]. split; [reflexivity|].
  repeat (constructor; [eexists _, _, _; repeat split; try reflexivity;
                        repeat (constructor; [eexists; split; reflexivity|]);
                        constructor |]).
  constructor.
Qed.

(** C6 (witness). The specification's example: of two entries the second
    has an item with target "In Development", by Alice. *)
Lemma GetDeveloperNameFromLog_Alice :
  GetDeveloperNameFromLog example_parent = Ok "Alice"%string.
Proof.
  apply (proj1 (GetDeveloperNameFromLog_first_named example_parent
                  [mkHistory "Bob" [Some "Open"];
                   mkHistory "Alice" [Some "In Development"]]%string
                  ltac:(eexists _, _; split; [reflexivity|]; split; [reflexivity|];
                        repeat (constructor;
                                [eexists _, _, _; repeat split; try reflexivity;
                                 repeat (constructor; [eexists; split; reflexivity|]);
                                 constructor |]);
                        constructor))).
Defined.

(** ** The sub-task aggregator *)

(** C8 (witness). The example issue is a bug: the assignee name "Dave" is
    replaced by "Alice". *)
Lemma GetSubTasksForIssue_assignee_example :
  ∃ issue' total' comm',
    GetSubTasksForIssue Sprint_example example_Unmarshal unit tt
      example_issue true 0 0%nat = Ok (issue', total', comm')
    ∧ AssigneeName issue' = "Alice"%string
    ∧ ∃ issueId parentIssueType,
        let parent := (GetIssue example_Unmarshal unit tt issueId true 0%nat).1 in
        index (Data example_issue) "id" = JString issueId
        ∧ GetValueFromField Sprint_example parent "issuetype" = Ok parentIssueType
        ∧ (IsBug parentIssueType = true →
           GetDeveloperNameFromLog parent = Ok (AssigneeName issue'))
        ∧ (IsBug parentIssueType = false →
           AssigneeName issue' = AssigneeName example_issue).
Proof.
  eexists _, _, _. split; [vm_compute; reflexivity|]. split; [reflexivity|].
  eapply (GetSubTasksForIssue_assignee (L:=ASCII_lowering) Sprint_example example_Unmarshal unit tt
            example_issue _ true 0 _ 0%nat _).
  vm_compute. reflexivity.
Defined.

(** C9 (witness). The example parent lists two sub-tasks: the counter goes
    from 5 to 8. *)
Lemma GetSubTasksForIssue_counts_example :
  ∃ issue' comm',
    GetSubTasksForIssue Sprint_example example_Unmarshal unit tt
      example_issue true 5 0%nat = Ok (issue', 8, comm')
    ∧ ∃ issueId fields subTasks,
        let parent := (GetIssue example_Unmarshal unit tt issueId true 0%nat).1 in
        let n := Z.of_nat (length subTasks) in
        index (Data example_issue) "id" = JString issueId
        ∧ index parent "fields" = JObject fields
        ∧ index fields "subtasks" = JArray subTasks
        ∧ 8 = int_wrap (5 + (1 + n))
        ∧ (- 2 ^ 63 ≤ 5 + (1 + n) < 2 ^ 63 → 8 = 5 + (1 + n)).
Proof.
  eexists _, _. split; [vm_compute; reflexivity|].
  eapply (GetSubTasksForIssue_counts (L:=ASCII_lowering) Sprint_example example_Unmarshal unit tt
            example_issue _ true 5 8 0%nat _).
  vm_compute. reflexivity.
Defined.


End Examples.

(** * Further properties *)

Section FurtherFacts.

Context {L : strings.Lowering}.

(** ** The value extractor *)

(** X1. The nested key, and with it [GetValue], depends on the field name
    only up to letter case. *)
Theorem GetValue_case_insensitive (Sprint_float64 : float64 → string)
    (val : json) (fieldName fieldName' : string) :
  lowers_alike →
  strings.EqualIgnoringCase fieldName fieldName' = true →
  GetNestedMapKeyName fieldName = GetNestedMapKeyName fieldName'
  ∧ GetValue Sprint_float64 val fieldName = GetValue Sprint_float64 val fieldName'.
Proof.
  intros HL E. apply HL in E.
  assert (K : GetNestedMapKeyName fieldName = GetNestedMapKeyName fieldName')
    by (unfold GetNestedMapKeyName; now rewrite E).
  split; [exact K|]. destruct val; try reflexivity. simpl. now rewrite K.
Qed.


Lemma list_ascii_of_string_app (s t : string) :
  list_ascii_of_string (s +:+ t) = list_ascii_of_string s ++ list_ascii_of_string t.
Proof. induction s as [|c s IH]; simpl; [done | now rewrite IH]. Qed.

Lemma comma_free_app (s t : string) :
  comma_free s → comma_free t → comma_free (s +:+ t).
Proof.
  unfold comma_free. rewrite list_ascii_of_string_app, in_app_iff. tauto.
Qed.

Lemma RemoveCommas_comma_free (s : string) : comma_free (strings.RemoveCommas s).
Proof.
  unfold comma_free. induction s as [|c s IH]; simpl; [tauto|].
  destruct (Ascii.eqb c ",") eqn:E; [exact IH|].
  apply Ascii.eqb_neq in E. simpl. intros [-> | ?]; tauto.
Qed.

Lemma digit_char_not_comma (d : Z) :
  0 ≤ d < 10 → ascii_of_nat (Z.to_nat (48 + d)) ≠ ","%char.
Proof.
  intros Hd E. apply (f_equal nat_of_ascii) in E.
  rewrite nat_ascii_embedding in E by lia.
  change (nat_of_ascii ",") with 44%nat in E. lia.
Qed.

Lemma two_comma_free (n : Z) : comma_free (time.two n).
Proof.
  unfold comma_free, time.two. simpl. intros [E | [E | []]];
    revert E; apply digit_char_not_comma;
    apply Z.mod_pos_bound; lia.
Qed.

Lemma shortMonth_comma_free (month : Z) : comma_free (time.shortMonth month).
Proof.
  unfold comma_free, time.shortMonth.
  generalize (Z.to_nat (month - 1)). intros n.
  do 12 (destruct n as [|n]; [cbv; intuition discriminate|]).
  destruct n; cbv; tauto.
Qed.

Lemma Format_comma_free (t : time.Time) : comma_free (time.Format t).
Proof.
  unfold time.Format.
  repeat apply comma_free_app;
    auto using two_comma_free, shortMonth_comma_free;
    cbv; intuition discriminate.
Qed.

(** X2. Whatever [GetValueFromField] returns has no comma in it: not the
    stripped value, not "N/A", not a date. *)
Theorem GetValueFromField_comma_free (Sprint_float64 : float64 → string)
    (issue : object) (field s : string) :
  GetValueFromField Sprint_float64 issue field = Ok s → comma_free s.
Proof.
  unfold GetValueFromField. intros Hrun.
  destruct (mapaccess issue "fields") as [[| | | | |fieldsMap]|];
    try discriminate; cbn [assert_map and_then] in Hrun.
  2:{ injection Hrun as <-. cbv. intuition discriminate. }
  destruct (mapaccess fieldsMap field) as [val|].
  2:{ injection Hrun as <-. cbv. intuition discriminate. }
  destruct (String.eqb (strings.ToLower field) "created").
  - destruct val; try discriminate. cbn [assert_string and_then] in Hrun.
    destruct (time.Parse s0) as [dateVal err]. injection Hrun as <-.
    apply Format_comma_free.
  - destruct (GetValue Sprint_float64 val field) as [v|]; [|discriminate].
    injection Hrun as <-. apply RemoveCommas_comma_free.
Qed.


Lemma parse_month (value : string) (t : time.Time) :
  time.parse value = Some t → 1 ≤ time.Month t ≤ 12.
Proof.
  unfold time.parse. intros Hp.
  repeat (simplify_option_eq || case_match). simpl. lia.
Qed.

Lemma String_length_app (s t : string) :
  String.length (s +:+ t) = (String.length s + String.length t)%nat.
Proof. induction s as [|c s IH]; simpl; [done | now rewrite IH]. Qed.

Lemma shortMonth_length (month : Z) :
  1 ≤ month ≤ 12 → String.length (time.shortMonth month) = 3%nat.
Proof.
  intros Hm.
  assert (month = 1 ∨ month = 2 ∨ month = 3 ∨ month = 4 ∨ month = 5
          ∨ month = 6 ∨ month = 7 ∨ month = 8 ∨ month = 9 ∨ month = 10
          ∨ month = 11 ∨ month = 12) as Hcases by lia.
  repeat (destruct Hcases as [-> | Hcases]; [reflexivity|]).
  now subst.
Qed.

(** X3. For a field that is "created" up to letter case and holds a string,
    [GetValueFromField] returns nine characters, DD/Mon/YY, whether the
    string parses or not. *)
Theorem GetValueFromField_created_width (Sprint_float64 : float64 → string)
    (issue fieldsMap : object) (field raw : string) :
  strings.ToLower field = "created"%string →
  mapaccess issue "fields" = Some (JObject fieldsMap) →
  mapaccess fieldsMap field = Some (JString raw) →
  ∃ s, GetValueFromField Sprint_float64 issue field = Ok s
       ∧ String.length s = 9%nat.
Proof.
  intros Hc Hf Hv. unfold GetValueFromField. rewrite Hf. simpl.
  rewrite Hv, Hc. simpl. unfold time.Parse.
  destruct (time.parse raw) as [t|] eqn:Hp; (eexists; split; [reflexivity|]).
  - unfold time.Format. rewrite !String_length_app.
    rewrite (shortMonth_length _ (parse_month _ _ Hp)). reflexivity.
  - reflexivity.
Qed.


(** ** The developer-of-record scan *)

(** X4. The scan stops at the first entry that enters development under a
    named author: what follows that entry in the history is not read, and may
    be anything. *)
Theorem GetDeveloperNameFromLog_stops_at_match
    (issue changelog : object) (before : list json) (hs : list History)
    (history : json) (h : History) (rest : list json) :
  mapaccess issue "changelog" = Some (JObject changelog) →
  mapaccess changelog "histories" = Some (JArray (before ++ history :: rest)) →
  Forall2 is_history before hs →
  Forall (λ e, enters_development e = false ∨ author e = EmptyString) hs →
  is_history history h →
  enters_development h = true →
  author h ≠ EmptyString →
  GetDeveloperNameFromLog issue = Ok (author h).
Proof.
  intros Hc Hh F Hpass I He Hn. unfold GetDeveloperNameFromLog.
  rewrite (index_Some _ _ _ Hc). cbn [assert_map and_then].
  rewrite (index_Some _ _ _ Hh). cbn [assert_array and_then].
  clear Hc Hh. induction F as [|e0 h0 before hs I0 F IH]; cbn [app scanHistories].
  - destruct I as (m & its & a & -> & Hi & Fi & Ha & Hd).
    cbn [assert_map and_then]. rewrite (index_Some _ _ _ Hi).
    cbn [assert_array and_then].
    rewrite (scanItems_spec _ _ _ _ _ _ Ha Hd Fi).
    unfold enters_development in He. rewrite He. cbn [and_then].
    apply String.eqb_neq in Hn. now rewrite Hn.
  - inversion_clear Hpass as [|? ? Hp0 Hpass'].
    destruct I0 as (m & its & a & -> & Hi & Fi & Ha & Hd).
    cbn [assert_map and_then]. rewrite (index_Some _ _ _ Hi).
    cbn [assert_array and_then].
    rewrite (scanItems_spec _ _ _ _ _ _ Ha Hd Fi). cbn [and_then].
    unfold enters_development in Hp0.
    destruct (targets_In_Development (items h0)).
    + destruct Hp0 as [? | ->]; [discriminate|]. cbn. now apply IH.
    + cbn. now apply IH.
Qed.


(** X5. On an issue that carries a change history, a name returned by the
    scan is the display name of the author of an entry that has an item with
    target "In Development"; and the scan returns the empty string exactly
    when no entry has both such an item and a named author. *)
Theorem GetDeveloperNameFromLog_provenance (issue : object) (hs : list History)
    (developerName : string) :
  is_changelog issue hs →
  GetDeveloperNameFromLog issue = Ok developerName →
  (developerName ≠ EmptyString →
   ∃ h, In h hs ∧ enters_development h = true ∧ author h = developerName)
  ∧ (developerName = EmptyString ↔
     Forall (λ h, enters_development h = false ∨ author h = EmptyString) hs).
Proof.
  intros (changelog & histories & Hc & Hh & F) Hrun.
  unfold GetDeveloperNameFromLog in Hrun.
  rewrite (index_Some _ _ _ Hc) in Hrun. cbn [assert_map and_then] in Hrun.
  rewrite (index_Some _ _ _ Hh) in Hrun. cbn [assert_array and_then] in Hrun.
  rewrite (scanHistories_spec _ _ F) in Hrun. injection Hrun as <-.
  unfold first_named_In_Development_author.
  destruct (find _ hs) as [h|] eqn:Ef.
  - apply find_some in Ef as [Hin Hb]. apply andb_true_iff in Hb as [He Hn].
    apply negb_true_iff, String.eqb_neq in Hn.
    split; [intros _; now exists h|]. split; [congruence|].
    intros Hall. rewrite Forall_forall in Hall.
    destruct (Hall h) as [? | ?]; [now apply list_elem_of_In | congruence | congruence].
  - split; [congruence|]. split; [|done]. intros _.
    apply Forall_forall. intros h Hin. apply list_elem_of_In in Hin.
    pose proof (find_none _ _ Ef h Hin) as Hb. cbn beta in Hb.
    apply andb_false_iff in Hb as [? | Hn]; [now left | right].
    apply negb_false_iff in Hn. now apply String.eqb_eq.
Qed.


(** ** The field catalog resolver *)

Lemma resolveField_lower (st st' : gmap string string * gmap string string)
    (field : object) :
  lowers_once →
  resolveField st field = Ok st' → lower_case_map st.1 → lower_case_map st'.1.
Proof.
  destruct st as [r s]. unfold resolveField. intros HL Hrun Hl.
  destruct (index field "custom") as [|c| | | |]; try discriminate.
  destruct (index field "name") as [| | |n| |]; try discriminate.
  cbn [assert_bool assert_string and_then] in Hrun.
  destruct c.
  - destruct (r !! n); [injection Hrun as <-; exact Hl|].
    destruct (s !! strings.ToLower n); [injection Hrun as <-; exact Hl|].
    destruct (index field "id") as [| | |i| |]; try discriminate.
    injection Hrun as <-. intros k v. cbn [fst]. rewrite lookup_insert.
    case_decide as E; [|apply Hl].
    intros [= <-]. subst k. now rewrite !HL.
  - destruct (r !! strings.ToLower n).
    + injection Hrun as <-. intros k v. cbn [fst].
      rewrite lookup_delete_Some. intros [_ ?]. now apply Hl.
    + destruct (index field "id") as [| | |i| |]; try discriminate.
      injection Hrun as <-. exact Hl.
Qed.

Lemma resolveFields_lower (fields : list object)
    (st st' : gmap string string * gmap string string) :
  lowers_once →
  resolveFields fields st = Ok st' → lower_case_map st.1 → lower_case_map st'.1.
Proof.
  intros HL. revert st.
  induction fields as [|field fields IH]; intros st Hrun Hl.
  - now injection Hrun as <-.
  - cbn [resolveFields] in Hrun.
    destruct (resolveField st field) as [st1|] eqn:E1; [|discriminate].
    cbn [and_then] in Hrun. eapply IH; [exact Hrun|].
    eapply resolveField_lower; [exact HL | exact E1 | exact Hl].
Qed.

(** X6. Every key and every value of a catalog the resolver returns is in
    lower case, whatever the case of the names and ids in the response. *)
Theorem GetCustomFields_lower_case (fields : list object)
    (catalog : gmap string string) :
  lowers_once →
  GetCustomFields fields = Ok catalog → lower_case_map catalog.
Proof.
  unfold GetCustomFields. intros HL Hrun.
  destruct (resolveFields fields (∅, ∅)) as [st|] eqn:E; [|discriminate].
  injection Hrun as <-.
  apply (resolveFields_lower _ _ _ HL E). intros k v. cbn [fst]. now rewrite lookup_empty.
Qed.


Lemma resolveField_provenance (all : list object)
    (st st' : gmap string string * gmap string string) (field : object) :
  resolveField st field = Ok st' → In field all →
  (∀ k v, st.1 !! k = Some v → from_custom_field all k v) →
  ∀ k v, st'.1 !! k = Some v → from_custom_field all k v.
Proof.
  destruct st as [r s]. unfold resolveField. intros Hrun Hin Hp.
  destruct (index field "custom") as [|c| | | |] eqn:Ec; try discriminate.
  destruct (index field "name") as [| | |n| |] eqn:En; try discriminate.
  cbn [assert_bool assert_string and_then] in Hrun.
  destruct c.
  - destruct (r !! n); [injection Hrun as <-; exact Hp|].
    destruct (s !! strings.ToLower n); [injection Hrun as <-; exact Hp|].
    destruct (index field "id") as [| | |i| |] eqn:Ei; try discriminate.
    injection Hrun as <-. intros k v. cbn [fst]. rewrite lookup_insert.
    case_decide as E; [|apply Hp].
    intros [= <-]. subst k. now exists field, n, i.
  - destruct (r !! strings.ToLower n).
    + injection Hrun as <-. intros k v. cbn [fst].
      rewrite lookup_delete_Some. intros [_ ?]. now apply Hp.
    + destruct (index field "id") as [| | |i| |]; try discriminate.
      injection Hrun as <-. exact Hp.
Qed.

Lemma resolveFields_provenance (all fields : list object)
    (st st' : gmap string string * gmap string string) :
  resolveFields fields st = Ok st' →
  (∀ field, In field fields → In field all) →
  (∀ k v, st.1 !! k = Some v → from_custom_field all k v) →
  ∀ k v, st'.1 !! k = Some v → from_custom_field all k v.
Proof.
  revert st. induction fields as [|field fields IH]; intros st Hrun Hsub Hp.
  - now injection Hrun as <-.
  - cbn [resolveFields] in Hrun.
    destruct (resolveField st field) as [st1|] eqn:E1; [|discriminate].
    cbn [and_then] in Hrun. eapply IH; [exact Hrun | |].
    + intros f Hf. apply Hsub. now right.
    + eapply resolveField_provenance; [exact E1 | apply Hsub; now left | exact Hp].
Qed.

(** X7. Every entry of a catalog the resolver returns is the lower-cased
    name and the lower-cased id of one custom field of the response: a
    standard field never gets an entry, and no entry is made up. *)
Theorem GetCustomFields_provenance (fields : list object)
    (catalog : gmap string string) (k v : string) :
  GetCustomFields fields = Ok catalog →
  catalog !! k = Some v →
  from_custom_field fields k v.
Proof.
  unfold GetCustomFields. intros Hrun Hk.
  destruct (resolveFields fields (∅, ∅)) as [st|] eqn:E; [|discriminate].
  injection Hrun as <-.
  apply (resolveFields_provenance fields _ _ _ E); [done | | exact Hk].
  intros k' v'. cbn [fst]. now rewrite lookup_empty.
Qed.


(** X8. A response with standard fields only gives the empty catalog. *)
Theorem GetCustomFields_standard_only (fields : list object)
    (defs : list FieldDef) :
  Forall2 is_field fields defs →
  Forall (λ d, custom d = false) defs →
  GetCustomFields fields = Ok ∅.
Proof.
  intros F Hstd. rewrite (GetCustomFields_is_field _ _ F). f_equal.
  apply map_eq. intros n. rewrite lookup_empty.
  apply resolveDefs_absent; [|apply lookup_empty].
  eapply Forall_impl; [exact Hstd|]. cbn beta. intros d Hd. congruence.
Qed.


Lemma resolveDefs_lower (defs : list FieldDef)
    (st : gmap string string * gmap string string) :
  lowers_once →
  lower_case_map st.1 → lower_case_map (fold_left resolveDef defs st).1.
Proof.
  intros HL. apply (resolveFields_lower (encode_field <$> defs) _ _ HL).
  apply resolveFields_is_field.
  induction defs; constructor; [apply is_field_encode | done].
Qed.

(** X9. A custom field whose lower-cased name no other field of the
    response carries is in the catalog, under its lower-cased name and with
    its lower-cased id. *)
Theorem GetCustomFields_unique_custom (fields : list object)
    (pre post : list FieldDef) (c : FieldDef) :
  lowers_once →
  Forall2 is_field fields (pre ++ c :: post) →
  custom c = true →
  Forall (λ d, strings.ToLower (name d) ≠ strings.ToLower (name c)) (pre ++ post) →
  ∃ catalog, GetCustomFields fields = Ok catalog
    ∧ catalog !! strings.ToLower (name c) = Some (strings.ToLower (id c)).
Proof.
  intros HL F Hc Hu. apply Forall_app in Hu as [Hpre Hpost].
  eexists. split; [exact (GetCustomFields_is_field _ _ F)|].
  rewrite fold_left_app. cbn [fold_left].
  set (st := fold_left resolveDef pre (∅, ∅)).
  set (n := strings.ToLower (name c)) in *.
  assert (H1 : st.1 !! n = None).
  { apply resolveDefs_absent; [|apply lookup_empty].
    eapply Forall_impl; [exact Hpre|]. cbn beta. tauto. }
  assert (H2 : st.2 !! n = None).
  { apply resolveDefs_unclaimed; [|apply lookup_empty].
    eapply Forall_impl; [exact Hpre|]. cbn beta. tauto. }
  assert (H3 : st.1 !! name c = None).
  { destruct (st.1 !! name c) as [v|] eqn:E; [|done].
    assert (Hlow : lower_case_map st.1).
    { apply (resolveDefs_lower _ _ HL). intros k' v'. cbn [fst]. now rewrite lookup_empty. }
    destruct (Hlow _ _ E) as [Ek _]. fold n in Ek. rewrite Ek in H1. congruence. }
  apply resolveDefs_kept.
  - eapply Forall_impl; [exact Hpost|]. cbn beta. tauto.
  - eapply Forall_impl; [exact Hpost|]. cbn beta. tauto.
  - unfold resolveDef. rewrite Hc, H3. fold n. rewrite H2. cbn [fst].
    apply lookup_insert_eq.
Qed.


Lemma resolveFields_app (fields fields' : list object)
    (st : gmap string string * gmap string string) :
  resolveFields (fields ++ fields') st =
  (let? st' := resolveFields fields st in resolveFields fields' st').
Proof.
  revert st. induction fields as [|field fields IH]; intros st; [done|].
  cbn [app resolveFields]. destruct (resolveField st field); [apply IH | done].
Qed.

(** X10. An entry of the response without a boolean "custom" or without a
    string "name" makes the resolver panic, wherever it stands after
    well-formed entries and whatever follows it: no catalog is returned. *)
Theorem GetCustomFields_malformed_entry (before rest : list object)
    (defs : list FieldDef) (bad : object) :
  Forall2 is_field before defs →
  (∀ b, index bad "custom" ≠ JBool b) ∨ (∀ n, index bad "name" ≠ JString n) →
  GetCustomFields (before ++ bad :: rest) = Panic InterfaceConversion.
Proof.
  intros F Hbad. unfold GetCustomFields.
  rewrite resolveFields_app, (resolveFields_is_field _ _ _ F).
  cbn [and_then resolveFields].
  destruct (fold_left resolveDef defs (∅, ∅)) as [r s].
  assert (E : resolveField (r, s) bad = Panic InterfaceConversion).
  { unfold resolveField.
    destruct (index bad "custom") as [|c| | | |] eqn:Ec; try reflexivity.
    destruct Hbad as [Hb | Hb]; [now destruct (Hb c)|].
    cbn [assert_bool and_then].
    destruct (index bad "name") as [| | |n| |] eqn:En; try reflexivity.
    now destruct (Hb n). }
  now rewrite E.
Qed.

End FurtherFacts.

(** ** The sub-task aggregator *)

Section AggregatorRuns.

Context {L : strings.Lowering}.

Variable Sprint_float64 : float64 → string.
Variable Unmarshal : string → object.
Variable Configuration : Type.
Context {C : Type} {comm0 : Communicator C}.

#[local] Abbreviation fetch :=
  (fetchSubTasks Sprint_float64 Unmarshal Configuration).
#[local] Abbreviation aggregate :=
  (GetSubTasksForIssue Sprint_float64 Unmarshal Configuration).

(** What a completed call went through, with the communicator and the
    fields of the issue that are passed on. *)
Lemma GetSubTasksForIssue_run (config : Configuration) (issue issue' : JiraIssue)
    (includeChangeLog : bool) (total total' : Z) (comm comm' : C) :
  aggregate config issue includeChangeLog total comm = Ok (issue', total', comm') →
  ∃ issueId parent comm1 fields subTasks parentIssueType,
    index (Data issue) "id" = JString issueId
    ∧ GetIssue Unmarshal Configuration config issueId includeChangeLog comm
      = (parent, comm1)
    ∧ index parent "fields" = JObject fields
    ∧ index fields "subtasks" = JArray subTasks
    ∧ fetch config subTasks [] (int_wrap (total + 1)) comm1
      = Ok (SubTasks issue', total', comm')
    ∧ GetValueFromField Sprint_float64 parent "issuetype" = Ok parentIssueType
    ∧ Data issue' = Data issue
    ∧ Fields issue' = Fields issue
    ∧ if IsBug parentIssueType
      then GetDeveloperNameFromLog parent = Ok (AssigneeName issue')
      else AssigneeName issue' = AssigneeName issue.
Proof.
  intros Hrun. unfold GetSubTasksForIssue in Hrun.
  destruct (index (Data issue) "id") as [| | |issueId| |] eqn:Eid;
    try discriminate.
  cbn [assert_string and_then] in Hrun.
  destruct (GetIssue Unmarshal Configuration config issueId includeChangeLog comm)
    as [parent comm1] eqn:Eg.
  destruct (index parent "fields") as [| | | | |fields] eqn:Ef; try discriminate.
  cbn [assert_map and_then] in Hrun.
  destruct (index fields "subtasks") as [| | | |subTasks|] eqn:Es;
    try discriminate.
  cbn [assert_array and_then] in Hrun.
  destruct (fetchSubTasks _ _ _ config subTasks [] _ comm1)
    as [[[result total2] comm2]|] eqn:Eloop; [|discriminate].
  cbn [and_then] in Hrun.
  destruct (GetValueFromField Sprint_float64 parent "issuetype")
    as [parentIssueType|] eqn:Et; [|discriminate].
  cbn [and_then] in Hrun.
  exists issueId, parent, comm1, fields, subTasks, parentIssueType.
  destruct (IsBug parentIssueType).
  - destruct (GetDeveloperNameFromLog parent) as [developerName|];
      [|discriminate].
    cbn [and_then] in Hrun. injection Hrun as <- <- <-. now repeat split.
  - injection Hrun as <- <- <-. now repeat split.
Qed.

(** The loop appends one record for each sub-task. *)
Lemma fetchSubTasks_appends (config : Configuration) (subTasks : list json)
    (result result' : list SubTask) (total total' : Z) (comm comm' : C) :
  fetch config subTasks result total comm = Ok (result', total', comm') →
  ∃ new, result' = result ++ new ∧ length new = length subTasks.
Proof.
  revert result total comm.
  induction subTasks as [|subTask subTasks IH]; intros result total comm Hrun.
  - injection Hrun as <- <- <-. exists []. now rewrite app_nil_r.
  - cbn [fetchSubTasks] in Hrun.
    destruct (assert_map subTask) as [m|]; [|discriminate].
    cbn [and_then] in Hrun.
    destruct (assert_string (index m "id")) as [key|]; [|discriminate].
    cbn [and_then] in Hrun.
    destruct (GetIssue Unmarshal Configuration config key false comm)
      as [subTaskIssue comm1].
    repeat match type of Hrun with
           | and_then ?r _ = _ =>
               destruct r; [cbn [and_then] in Hrun | discriminate]
           end.
    apply IH in Hrun as (new & -> & Hlen).
    eexists (_ :: new). rewrite <- app_assoc. split; [reflexivity|].
    cbn [length]. now rewrite Hlen.
Qed.

(** X11. A completed call passes the raw issue and the requested field
    names on as they came, and sends exactly one sub-task record for each
    element of the parent's "subtasks", whatever sub-tasks the incoming
    issue carried. *)
Theorem GetSubTasksForIssue_frame (config : Configuration)
    (issue issue' : JiraIssue) (includeChangeLog : bool) (total total' : Z)
    (comm comm' : C) :
  aggregate config issue includeChangeLog total comm = Ok (issue', total', comm') →
  Data issue' = Data issue
  ∧ Fields issue' = Fields issue
  ∧ ∃ issueId fields subTasks,
      let parent :=
        (GetIssue Unmarshal Configuration config issueId includeChangeLog comm).1 in
      index (Data issue) "id" = JString issueId
      ∧ index parent "fields" = JObject fields
      ∧ index fields "subtasks" = JArray subTasks
      ∧ length (SubTasks issue') = length subTasks.
Proof.
  intros Hrun.
  destruct (GetSubTasksForIssue_run _ _ _ _ _ _ _ _ Hrun)
    as (issueId & parent & comm1 & fields & subTasks & ty
        & Hid & Hg & Hf & Hs & Hloop & _ & HD & HF & _).
  split; [exact HD|]. split; [exact HF|].
  exists issueId, fields, subTasks. rewrite Hg. cbn [fst].
  apply fetchSubTasks_appends in Hloop as (new & -> & Hlen).
  now repeat split.
Qed.

(** X14. When the parent is a bug and comes without "changelog" (as when
    the history was not asked for), the call panics in the scan: nothing is
    sent for that issue. *)
Theorem GetSubTasksForIssue_bug_without_changelog (config : Configuration)
    (issue : JiraIssue) (includeChangeLog : bool) (total : Z) (comm : C)
    (issueId parentIssueType : string) :
  let parent :=
    (GetIssue Unmarshal Configuration config issueId includeChangeLog comm).1 in
  index (Data issue) "id" = JString issueId →
  GetValueFromField Sprint_float64 parent "issuetype" = Ok parentIssueType →
  IsBug parentIssueType = true →
  mapaccess parent "changelog" = None →
  ∃ p, aggregate config issue includeChangeLog total comm = Panic p.
Proof.
  intros parent Hid Hty Hbug Hlog.
  destruct (aggregate config issue includeChangeLog total comm)
    as [[[issue' total'] comm']|p] eqn:Hrun; [|now exists p].
  destruct (GetSubTasksForIssue_run _ _ _ _ _ _ _ _ Hrun)
    as (issueId' & parent' & comm1 & fields & subTasks & ty
        & Hid' & Hg & _ & _ & _ & Hty' & _ & _ & Hif).
  assert (issueId' = issueId) as -> by congruence.
  subst parent. rewrite Hg in Hty, Hlog. cbn [fst] in Hty, Hlog.
  assert (ty = parentIssueType) as -> by congruence.
  rewrite Hbug in Hif. unfold GetDeveloperNameFromLog, index in Hif.
  rewrite Hlog in Hif. discriminate.
Qed.

(** X15. When the parent's response has no "fields" object (as when the
    body does not decode), the call panics on the forced assertion, before
    any sub-task is asked for. *)
Theorem GetSubTasksForIssue_parent_without_fields (config : Configuration)
    (issue : JiraIssue) (includeChangeLog : bool) (total : Z) (comm : C)
    (issueId : string) :
  let parent :=
    (GetIssue Unmarshal Configuration config issueId includeChangeLog comm).1 in
  index (Data issue) "id" = JString issueId →
  (∀ fields, index parent "fields" ≠ JObject fields) →
  aggregate config issue includeChangeLog total comm = Panic InterfaceConversion.
Proof.
  intros parent Hid Hnf. unfold GetSubTasksForIssue. rewrite Hid.
  cbn [assert_string and_then]. subst parent.
  destruct (GetIssue Unmarshal Configuration config issueId includeChangeLog comm)
    as [parent comm1]. cbn [fst] in Hnf.
  destruct (index parent "fields") as [| | | | |fields]; try reflexivity.
  now destruct (Hnf fields).
Qed.

(** X16. When the parent's "fields" has no "issuetype", the extractor
    gives "N/A", which is no bug: a completed call leaves the assignee name
    as it came. *)
Theorem GetSubTasksForIssue_untyped_parent (config : Configuration)
    (issue issue' : JiraIssue) (includeChangeLog : bool) (total total' : Z)
    (comm comm' : C) (issueId : string) (fields : object) :
  lowers_ASCII →
  let parent :=
    (GetIssue Unmarshal Configuration config issueId includeChangeLog comm).1 in
  aggregate config issue includeChangeLog total comm = Ok (issue', total', comm') →
  index (Data issue) "id" = JString issueId →
  mapaccess parent "fields" = Some (JObject fields) →
  mapaccess fields "issuetype" = None →
  AssigneeName issue' = AssigneeName issue.
Proof.
  intros HL parent Hrun Hid Hf Hty.
  destruct (GetSubTasksForIssue_run _ _ _ _ _ _ _ _ Hrun)
    as (issueId' & parent' & comm1 & fields' & subTasks & ty
        & Hid' & Hg & _ & _ & _ & Hty' & _ & _ & Hif).
  assert (issueId' = issueId) as -> by congruence.
  subst parent. rewrite Hg in Hf. cbn [fst] in Hf.
  unfold GetValueFromField in Hty'. rewrite Hf in Hty'.
  cbn [assert_map and_then] in Hty'. rewrite Hty in Hty'.
  injection Hty' as <-.
  rewrite (IsBug_ASCII _ HL (eq_refl : strings.isASCII "N/A" = true)) in Hif.
  exact Hif.
Qed.

End AggregatorRuns.

Section AggregatorRequests.

Context {L : strings.Lowering}.

Variable Sprint_float64 : float64 → string.
Variable Unmarshal : string → object.
Variable Configuration : Type.
Context {C : Type} (comm0 : Communicator C).

Lemma GetIssue_logged (config : Configuration) (issueId : string)
    (includeChangeLog : bool) (c : C) (log : list string) :
  @GetIssue Unmarshal Configuration _ (logged comm0) config issueId
    includeChangeLog (c, log)
  = let r := @GetIssue Unmarshal Configuration _ comm0 config issueId
               includeChangeLog c in
    (r.1, (r.2, log ++ [issue_path issueId includeChangeLog])).
Proof.
  unfold GetIssue, logged, issue_path, CreateRequestAndGetResponse. cbn [fst snd].
  destruct includeChangeLog; now destruct (comm0 c _ None).
Qed.

Lemma fetchSubTasks_logged (config : Configuration) (subTasks : list json)
    (result result' : list SubTask) (total total' : Z) (c c' : C)
    (log log' : list string) :
  @fetchSubTasks L Sprint_float64 Unmarshal Configuration _ (logged comm0)
    config subTasks result total (c, log) = Ok (result', total', (c', log')) →
  ∃ keys, Forall2 has_id subTasks keys
          ∧ log' = log ++ map (λ key, issue_path key false) keys.
Proof.
  revert result total c log.
  induction subTasks as [|subTask subTasks IH]; intros result total c log Hrun.
  - injection Hrun as <- <- <- <-. exists []. split; [constructor|].
    now rewrite app_nil_r.
  - cbn [fetchSubTasks] in Hrun.
    destruct subTask as [| | | | |m]; try discriminate.
    cbn [assert_map and_then] in Hrun.
    destruct (index m "id") as [| | |key| |] eqn:Ek; try discriminate.
    cbn [assert_string and_then] in Hrun.
    rewrite GetIssue_logged in Hrun. cbv beta iota zeta in Hrun.
    repeat match type of Hrun with
           | and_then ?r _ = _ =>
               destruct r; [cbn [and_then] in Hrun | discriminate]
           end.
    apply IH in Hrun as (keys & Hkeys & ->).
    exists (key :: keys). split.
    + constructor; [now exists m | exact Hkeys].
    + cbn [map]. now rewrite <- app_assoc.
Qed.

(** X12. The requests of a completed call, in order: one for the parent,
    with "?expand=changelog" exactly when the history is asked for, then one
    for each sub-task in the order the parent lists them, never with the
    history. *)
Theorem GetSubTasksForIssue_requests (config : Configuration)
    (issue issue' : JiraIssue) (includeChangeLog : bool) (total total' : Z)
    (c c' : C) (log log' : list string) :
  @GetSubTasksForIssue L Sprint_float64 Unmarshal Configuration _ (logged comm0)
    config issue includeChangeLog total (c, log) = Ok (issue', total', (c', log')) →
  ∃ issueId fields subTasks keys,
    let parent :=
      (@GetIssue Unmarshal Configuration _ comm0 config issueId
         includeChangeLog c).1 in
    index (Data issue) "id" = JString issueId
    ∧ index parent "fields" = JObject fields
    ∧ index fields "subtasks" = JArray subTasks
    ∧ Forall2 has_id subTasks keys
    ∧ log' = log ++ issue_path issueId includeChangeLog
                    :: map (λ key, issue_path key false) keys.
Proof.
  intros Hrun.
  destruct (GetSubTasksForIssue_run _ _ _ _ _ _ _ _ _ _ _ Hrun)
    as (issueId & parent & [c1 log1] & fields & subTasks & ty
        & Hid & Hg & Hf & Hs & Hloop & _).
  rewrite GetIssue_logged in Hg. cbv zeta in Hg. injection Hg as <- <- <-.
  apply fetchSubTasks_logged in Hloop as (keys & Hkeys & ->).
  exists issueId, fields, subTasks, keys. cbv zeta.
  repeat split; try done. now rewrite <- app_assoc.
Qed.

End AggregatorRequests.

Section AggregatorOrder.

Context {L : strings.Lowering}.

Variable Sprint_float64 : float64 → string.
Variable Unmarshal : string → object.
Variable Configuration : Type.
Context {C : Type} {comm0 : Communicator C}.

(** The body of a response depends on the path only. *)
Variable respond : string → string.
Hypothesis respond_path :
  ∀ (c : C) (apiPath : string) (params : option (gmap string string)),
    (CreateRequestAndGetResponse c apiPath params).1 = respond apiPath.

Lemma GetIssue_respond (config : Configuration) (issueId : string)
    (includeChangeLog : bool) (c : C) :
  (GetIssue Unmarshal Configuration config issueId includeChangeLog c).1
  = Unmarshal (respond (issue_path issueId includeChangeLog)).
Proof.
  unfold GetIssue, issue_path.
  destruct includeChangeLog;
    match goal with
    | |- context [CreateRequestAndGetResponse c ?p None] =>
        rewrite <- (respond_path c p None);
        now destruct (CreateRequestAndGetResponse c p None)
    end.
Qed.

Lemma fetchSubTasks_in_order (config : Configuration) (subTasks : list json)
    (result result' : list SubTask) (total total' : Z) (c c' : C) :
  fetchSubTasks Sprint_float64 Unmarshal Configuration config subTasks
    result total c = Ok (result', total', c') →
  ∃ keys new,
    Forall2 has_id subTasks keys
    ∧ result' = result ++ new
    ∧ Forall2 (λ key sub,
                 extracted_from Sprint_float64
                   (Unmarshal (respond (issue_path key false))) sub) keys new.
Proof.
  revert result total c.
  induction subTasks as [|subTask subTasks IH]; intros result total c Hrun.
  - injection Hrun as <- <- <-. exists [], [].
    rewrite app_nil_r. repeat split; constructor.
  - cbn [fetchSubTasks] in Hrun.
    destruct subTask as [| | | | |m]; try discriminate.
    cbn [assert_map and_then] in Hrun.
    destruct (index m "id") as [| | |key| |] eqn:Ek; try discriminate.
    cbn [assert_string and_then] in Hrun.
    pose proof (GetIssue_respond config key false c) as Hi.
    destruct (GetIssue Unmarshal Configuration config key false c)
      as [subTaskIssue c1]. cbn [fst] in Hi. subst subTaskIssue.
    set (subTaskIssue := Unmarshal (respond (issue_path key false))) in *.
    destruct (GetValueFromField Sprint_float64 subTaskIssue "assignee")
      as [assignee|] eqn:E1; [|discriminate].
    cbn [and_then] in Hrun.
    destruct (GetValueFromField Sprint_float64 subTaskIssue "issuetype")
      as [issueType|] eqn:E2; [|discriminate].
    cbn [and_then] in Hrun.
    destruct (GetValueFromField Sprint_float64 subTaskIssue "summary")
      as [name|] eqn:E3; [|discriminate].
    cbn [and_then] in Hrun.
    destruct (GetValueFromField Sprint_float64 subTaskIssue "timetracking")
      as [totalHours|] eqn:E4; [|discriminate].
    cbn [and_then] in Hrun.
    apply IH in Hrun as (keys & new & Hkeys & -> & Hnew).
    exists (key :: keys), (mkSubTask issueType name assignee totalHours :: new).
    split; [constructor; [now exists m | exact Hkeys]|].
    split; [now rewrite <- app_assoc|].
    constructor; [|exact Hnew]. now repeat split.
Qed.

(** X13. With a remote whose answer depends on the path only, the
    sub-task records of a completed call are, in the order in which the
    parent lists the sub-tasks, the "assignee", "issuetype", "summary" and
    "timetracking" strings extracted from the issue behind each id. *)
Theorem GetSubTasksForIssue_in_order (config : Configuration)
    (issue issue' : JiraIssue) (includeChangeLog : bool) (total total' : Z)
    (c c' : C) :
  GetSubTasksForIssue Sprint_float64 Unmarshal Configuration config issue
    includeChangeLog total c = Ok (issue', total', c') →
  ∃ issueId fields subTasks keys,
    let parent := Unmarshal (respond (issue_path issueId includeChangeLog)) in
    index (Data issue) "id" = JString issueId
    ∧ index parent "fields" = JObject fields
    ∧ index fields "subtasks" = JArray subTasks
    ∧ Forall2 has_id subTasks keys
    ∧ Forall2 (λ key sub,
                 extracted_from Sprint_float64
                   (Unmarshal (respond (issue_path key false))) sub)
        keys (SubTasks issue').
Proof.
  intros Hrun.
  destruct (GetSubTasksForIssue_run _ _ _ _ _ _ _ _ _ _ _ Hrun)
    as (issueId & parent & c1 & fields & subTasks & ty
        & Hid & Hg & Hf & Hs & Hloop & _).
  pose proof (GetIssue_respond config issueId includeChangeLog c) as Hp.
  rewrite Hg in Hp. cbn [fst] in Hp. subst parent.
  apply fetchSubTasks_in_order in Hloop as (keys & new & Hkeys & Hres & Hnew).
  cbn [app] in Hres. rewrite Hres.
  exists issueId, fields, subTasks, keys. now repeat split.
Qed.

End AggregatorOrder.

(** ** The search runner *)

Section SearchFacts.

Context {L : strings.Lowering}.

Variable Sprint_float64 : float64 → string.
Variable Unmarshal : string → object.
Variable Configuration : Type.
Context {C : Type} {comm0 : Communicator C}.

Lemma sendIssues_objects (issues : list json) (datas : list object)
    (processedFields : list string) (sent : list JiraIssue) :
  Forall2 (λ issue data, issue = JObject data) issues datas →
  sendIssues issues processedFields sent
  = (sent ++ map (found processedFields) datas, Ok tt).
Proof.
  intros F. revert sent.
  induction F as [|issue data issues datas -> F IH]; intros sent.
  - cbn. now rewrite app_nil_r.
  - cbn [sendIssues assert_map map]. rewrite IH. now rewrite <- app_assoc.
Qed.

Lemma sendIssues_stops (good rest : list json) (datas : list object)
    (bad : json) (processedFields : list string) (sent : list JiraIssue) :
  Forall2 (λ issue data, issue = JObject data) good datas →
  (∀ data, bad ≠ JObject data) →
  sendIssues (good ++ bad :: rest) processedFields sent
  = (sent ++ map (found processedFields) datas, Panic InterfaceConversion).
Proof.
  intros F Hbad. revert sent.
  induction F as [|issue data good datas -> F IH]; intros sent.
  - cbn [app sendIssues map]. rewrite app_nil_r.
    destruct bad as [| | | | |data]; try reflexivity. now destruct (Hbad data).
  - cbn [app sendIssues assert_map map]. rewrite IH. now rewrite <- app_assoc.
Qed.

(** X17. On a response whose "issues" is an array of objects,
    [SearchIssues] makes one request and sends one issue for each element, in
    the order of the response: the element as raw issue, the requested field
    names, no sub-task and an empty assignee name. *)
Theorem SearchIssues_delivers (config : Configuration) (jql : string)
    (processedFields : list string) (communicator : C)
    (issues : list json) (datas : list object) :
  let response :=
    CreateRequestAndGetResponse communicator "/rest/api/2/search"
      (Some (search_params jql processedFields)) in
  index (Unmarshal response.1) "issues" = JArray issues →
  Forall2 (λ issue data, issue = JObject data) issues datas →
  SearchIssues Unmarshal Configuration config jql processedFields communicator
  = (map (found processedFields) datas, Ok response.2).
Proof.
  intros response Hi F. unfold SearchIssues. fold (search_params jql processedFields).
  fold response. destruct response as [body c1]. cbn [fst snd] in *.
  rewrite Hi. cbn [assert_array]. now rewrite (sendIssues_objects _ _ _ _ F).
Qed.

(** X18. When an element of "issues" is not an object, the issues before
    it have been sent, in order, when [SearchIssues] panics; nothing after it
    is sent. *)
Theorem SearchIssues_partial (config : Configuration) (jql : string)
    (processedFields : list string) (communicator : C)
    (good rest : list json) (bad : json) (datas : list object) :
  let response :=
    CreateRequestAndGetResponse communicator "/rest/api/2/search"
      (Some (search_params jql processedFields)) in
  index (Unmarshal response.1) "issues" = JArray (good ++ bad :: rest) →
  Forall2 (λ issue data, issue = JObject data) good datas →
  (∀ data, bad ≠ JObject data) →
  SearchIssues Unmarshal Configuration config jql processedFields communicator
  = (map (found processedFields) datas, Panic InterfaceConversion).
Proof.
  intros response Hi F Hbad. unfold SearchIssues.
  fold (search_params jql processedFields).
  fold response. destruct response as [body c1]. cbn [fst snd] in *.
  rewrite Hi. cbn [assert_array].
  now rewrite (sendIssues_stops _ _ _ _ _ _ F Hbad).
Qed.

Lemma sendIssues_sent (issues : list json) (processedFields : list string)
    (sent : list JiraIssue) (issue : JiraIssue) :
  In issue (sendIssues issues processedFields sent).1 →
  In issue sent ∨ ∃ data, In (JObject data) issues ∧ issue = found processedFields data.
Proof.
  revert sent. induction issues as [|j issues IH]; intros sent Hin.
  - now left.
  - cbn [sendIssues] in Hin. destruct j as [| | | | |data];
      try (now left).
    cbn [assert_map] in Hin. apply IH in Hin as [Hin | (d & Hd & ->)].
    + apply in_app_iff in Hin as [? | [<- | []]]; [now left|].
      right. exists data. split; [now left | done].
    + right. exists d. split; [now right | done].
Qed.

Lemma SearchIssues_sent (config : Configuration) (jql : string)
    (processedFields : list string) (communicator : C) (issue : JiraIssue) :
  In issue (SearchIssues Unmarshal Configuration config jql processedFields
              communicator).1 →
  ∃ data, issue = found processedFields data.
Proof.
  unfold SearchIssues.
  destruct (CreateRequestAndGetResponse communicator _ _) as [body c1].
  destruct (assert_array _) as [issues|]; [|intros []].
  destruct (sendIssues issues processedFields []) as [sent r] eqn:E.
  cbn [fst]. intros Hin.
  assert (Hin' : In issue (sendIssues issues processedFields []).1)
    by now rewrite E.
  apply sendIssues_sent in Hin' as [[] | (data & _ & ->)]. now exists data.
Qed.

(** X19. Search, then aggregation: an issue sent by [SearchIssues] and
    taken through a completed [GetSubTasksForIssue] keeps the requested field
    names, and its assignee name is empty unless the parent is a bug. *)
Theorem SearchIssues_then_GetSubTasksForIssue (config : Configuration)
    (jql : string) (processedFields : list string) (communicator : C)
    (issue issue' : JiraIssue) (includeChangeLog : bool) (total total' : Z)
    (comm comm' : C) :
  In issue (SearchIssues Unmarshal Configuration config jql processedFields
              communicator).1 →
  GetSubTasksForIssue Sprint_float64 Unmarshal Configuration config issue
    includeChangeLog total comm = Ok (issue', total', comm') →
  Fields issue' = processedFields
  ∧ ∃ issueId parentIssueType,
      let parent :=
        (GetIssue Unmarshal Configuration config issueId includeChangeLog comm).1 in
      index (Data issue) "id" = JString issueId
      ∧ GetValueFromField Sprint_float64 parent "issuetype" = Ok parentIssueType
      ∧ (IsBug parentIssueType = false → AssigneeName issue' = EmptyString).
Proof.
  intros Hin Hrun. apply SearchIssues_sent in Hin as [data ->].
  destruct (GetSubTasksForIssue_run _ _ _ _ _ _ _ _ _ _ _ Hrun)
    as (issueId & parent & c1 & fields & subTasks & ty
        & Hid & Hg & _ & _ & _ & Hty & _ & HF & Hif).
  split; [exact HF|]. exists issueId, ty. rewrite Hg. cbn [fst].
  repeat split; [exact Hid | exact Hty |]. intros Hb. now rewrite Hb in Hif.
Qed.

End SearchFacts.

(** ** The further properties at concrete inputs *)

Section FurtherExamples.

#[local] Existing Instance ASCII_lowering.

Lemma GetSubTasksForIssue_frame_example :
  ∃ issue' total' comm',
    GetSubTasksForIssue Sprint_example example_Unmarshal unit tt
      (mkJiraIssue [("id", JString "10")]%string ["summary"]%string
         [mkSubTask "Task" "Stale" "Eve" "1h"]%string "Dave")
      true 0 0%nat = Ok (issue', total', comm')
    ∧ length (SubTasks issue') = 2%nat
    ∧ Data issue' = [("id", JString "10")]%string
    ∧ Fields issue' = ["summary"]%string
    ∧ ∃ issueId fields subTasks,
        let parent := (GetIssue example_Unmarshal unit tt issueId true 0%nat).1 in
        index [("id", JString "10")]%string "id" = JString issueId
        ∧ index parent "fields" = JObject fields
        ∧ index fields "subtasks" = JArray subTasks
        ∧ length (SubTasks issue') = length subTasks.
Proof.
  eexists _, _, _. split; [vm_compute; reflexivity|]. split; [reflexivity|].
  eapply (GetSubTasksForIssue_frame (L:=ASCII_lowering) Sprint_example example_Unmarshal unit tt
            (mkJiraIssue [("id", JString "10")]%string ["summary"]%string
               [mkSubTask "Task" "Stale" "Eve" "1h"]%string "Dave")
            _ true 0 _ 0%nat _).
  vm_compute. reflexivity.
Defined.

Lemma GetSubTasksForIssue_requests_example :
  ∃ issue' total' served log',
    @GetSubTasksForIssue ASCII_lowering Sprint_example example_Unmarshal unit _
      (logged example_communicator) tt example_issue true 0 (0%nat, [])
    = Ok (issue', total', (served, log'))
    ∧ log' = ["/rest/api/2/issue/10?expand=changelog";
              "/rest/api/2/issue/11"; "/rest/api/2/issue/12"]%string
    ∧ ∃ issueId fields subTasks keys,
        let parent :=
          (@GetIssue example_Unmarshal unit _ example_communicator tt issueId
             true 0%nat).1 in
        index (Data example_issue) "id" = JString issueId
        ∧ index parent "fields" = JObject fields
        ∧ index fields "subtasks" = JArray subTasks
        ∧ Forall2 has_id subTasks keys
        ∧ log' = [] ++ issue_path issueId true
                       :: map (λ key, issue_path key false) keys.
Proof.
  eexists _, _, _, _. split; [vm_compute; reflexivity|]. split; [reflexivity|].
  eapply (GetSubTasksForIssue_requests (L:=ASCII_lowering) Sprint_example example_Unmarshal unit
           example_communicator tt example_issue _ true 0 _ 0%nat _ [] _).
  vm_compute. reflexivity.
Defined.

Lemma GetSubTasksForIssue_in_order_example :
  ∃ issue' total' comm',
    GetSubTasksForIssue Sprint_example example_Unmarshal unit tt
      example_issue true 0 0%nat = Ok (issue', total', comm')
    ∧ SubTasks issue' = [mkSubTask "Sub-task" "Write test" "Carol" "N/A";
                         mkSubTask "Sub-task" "Review" "Carol" "N/A"]%string
    ∧ ∃ issueId fields subTasks keys,
        let parent := example_Unmarshal (issue_path issueId true) in
        index (Data example_issue) "id" = JString issueId
        ∧ index parent "fields" = JObject fields
        ∧ index fields "subtasks" = JArray subTasks
        ∧ Forall2 has_id subTasks keys
        ∧ Forall2 (λ key sub,
                     extracted_from Sprint_example
                       (example_Unmarshal (issue_path key false)) sub)
            keys (SubTasks issue').
Proof.
  eexists _, _, _. split; [vm_compute; reflexivity|]. split; [reflexivity|].
  eapply (@GetSubTasksForIssue_in_order ASCII_lowering Sprint_example example_Unmarshal unit
            nat example_communicator (λ apiPath, apiPath) (λ _ _ _, eq_refl)
            tt example_issue _ true 0 _ 0%nat _).
  vm_compute. reflexivity.
Defined.

Lemma GetSubTasksForIssue_bug_without_changelog_example :
  ∃ p, GetSubTasksForIssue Sprint_example example_Unmarshal_plain unit tt
         (mkJiraIssue [("id", JString "30")]%string [] [] EmptyString)
         false 0 0%nat = Panic p.
Proof.
  apply (GetSubTasksForIssue_bug_without_changelog (L:=ASCII_lowering) Sprint_example
           example_Unmarshal_plain unit tt
           (mkJiraIssue [("id", JString "30")]%string [] [] EmptyString)
           false 0 0%nat "30" "Bug");
    reflexivity.
Defined.

Lemma GetSubTasksForIssue_parent_without_fields_example :
  GetSubTasksForIssue Sprint_example example_Unmarshal unit tt
    (mkJiraIssue [("id", JString "99")]%string [] [] EmptyString)
    true 0 0%nat = Panic InterfaceConversion.
Proof.
  apply (GetSubTasksForIssue_parent_without_fields (L:=ASCII_lowering) Sprint_example
           example_Unmarshal unit tt
           (mkJiraIssue [("id", JString "99")]%string [] [] EmptyString)
           true 0 0%nat "99").
  - reflexivity.
  - discriminate.
Defined.

Lemma GetSubTasksForIssue_untyped_parent_example :
  ∃ issue' total' comm',
    GetSubTasksForIssue Sprint_example example_Unmarshal_plain unit tt
      (mkJiraIssue [("id", JString "40")]%string [] [] "Dave") false 0 0%nat
    = Ok (issue', total', comm')
    ∧ AssigneeName issue' = "Dave"%string.
Proof.
  eexists _, _, _. split; [vm_compute; reflexivity|].
  eapply (GetSubTasksForIssue_untyped_parent (L:=ASCII_lowering) Sprint_example
           example_Unmarshal_plain unit tt
           (mkJiraIssue [("id", JString "40")]%string [] [] "Dave") _
           false 0 _ 0%nat _ "40"
           [("summary", JString "Untyped"); ("subtasks", JArray [])]%string);
    first [exact ASCII_lowers_ASCII | reflexivity].
Defined.

Lemma SearchIssues_delivers_example :
  SearchIssues example_search_Unmarshal unit tt "project = DEMO"
    ["summary"; "issuetype"]%string 0%nat
  = ([found ["summary"; "issuetype"]%string [("id", JString "10")]%string;
      found ["summary"; "issuetype"]%string [("id", JString "40")]%string],
     Ok 1%nat).
Proof.
  apply (@SearchIssues_delivers example_search_Unmarshal unit nat
           example_communicator tt "project = DEMO"
           ["summary"; "issuetype"]%string 0%nat
           [JObject [("id", JString "10")]; JObject [("id", JString "40")]]%string
           [[("id", JString "10")]; [("id", JString "40")]]%string).
  - reflexivity.
  - repeat constructor.
Defined.

Lemma SearchIssues_partial_example :
  SearchIssues
    (λ _, [("issues", JArray [JObject [("id", JString "10")]; JNull;
                              JObject [("id", JString "40")]])]%string)
    unit tt "project = DEMO" ["summary"]%string 0%nat
  = ([found ["summary"]%string [("id", JString "10")]%string],
     Panic InterfaceConversion).
Proof.
  apply (@SearchIssues_partial
           (λ _, [("issues", JArray [JObject [("id", JString "10")]; JNull;
                                     JObject [("id", JString "40")]])]%string)
           unit nat example_communicator tt "project = DEMO" ["summary"]%string 0%nat
           [JObject [("id", JString "10")]]%string
           [JObject [("id", JString "40")]]%string JNull
           [[("id", JString "10")]]%string).
  - reflexivity.
  - repeat constructor.
  - discriminate.
Defined.

Lemma SearchIssues_then_GetSubTasksForIssue_example :
  ∃ issue' total' comm',
    GetSubTasksForIssue Sprint_example example_Unmarshal_plain unit tt
      (found ["summary"]%string [("id", JString "40")]%string) false 0 1%nat
    = Ok (issue', total', comm')
    ∧ AssigneeName issue' = EmptyString
    ∧ Fields issue' = ["summary"]%string
    ∧ ∃ issueId parentIssueType,
        let parent :=
          (GetIssue example_Unmarshal_plain unit tt issueId false 1%nat).1 in
        index [("id", JString "40")]%string "id" = JString issueId
        ∧ GetValueFromField Sprint_example parent "issuetype" = Ok parentIssueType
        ∧ (IsBug parentIssueType = false → AssigneeName issue' = EmptyString).
Proof.
  eexists _, _, _. split; [vm_compute; reflexivity|]. split; [reflexivity|].
  eapply (@SearchIssues_then_GetSubTasksForIssue ASCII_lowering Sprint_example
            example_Unmarshal_plain unit nat example_communicator tt
            "project = DEMO"
            ["summary"]%string 0%nat
            (found ["summary"]%string [("id", JString "40")]%string) _
            false 0 _ 1%nat _).
  - vm_compute. right. left. reflexivity.
  - vm_compute. reflexivity.
Defined.

Lemma GetValue_case_insensitive_example :
  GetValue Sprint_example (JObject [("displayName", JString "Carol")]) "Assignee"
  = GetValue Sprint_example (JObject [("displayName", JString "Carol")]) "ASSIGNEE".
Proof.
  apply (GetValue_case_insensitive (L:=ASCII_lowering) Sprint_example _ "Assignee" "ASSIGNEE"
           ASCII_lowers_alike).
  reflexivity.
Defined.

Lemma GetValueFromField_comma_free_example :
  GetValueFromField Sprint_example
    [("fields", JObject [("summary", JString "Crash, then hang")])] "summary"
  = Ok "Crash then hang"%string
  ∧ comma_free "Crash then hang".
Proof.
  split; [reflexivity|].
  apply (GetValueFromField_comma_free (L:=ASCII_lowering) Sprint_example
           [("fields", JObject [("summary", JString "Crash, then hang")])]%string
           "summary").
  reflexivity.
Defined.

Lemma GetValueFromField_created_width_example :
  ∃ s, GetValueFromField Sprint_example
         [("fields", JObject [("Created", JString "2024-02-29T9:05:00+0530")])]
         "Created" = Ok s
       ∧ String.length s = 9%nat.
Proof.
  apply (GetValueFromField_created_width (L:=ASCII_lowering) Sprint_example _
           [("Created", JString "2024-02-29T9:05:00+0530")]%string
           "Created" "2024-02-29T9:05:00+0530");
    reflexivity.
Defined.

Lemma GetDeveloperNameFromLog_stops_at_match_example :
  GetDeveloperNameFromLog
    [("changelog", JObject [("histories", JArray
        [JObject [("author", JObject [("displayName", JString "Alice")]);
                  ("items", JArray [JObject [("toString", JString "In Development")]])];
         JString "not an entry"])])]
  = Ok "Alice"%string.
Proof.
  pose (entry :=
    JObject [("author", JObject [("displayName", JString "Alice")]);
             ("items", JArray [JObject [("toString", JString "In Development")]])]%string).
  apply (GetDeveloperNameFromLog_stops_at_match _
           [("histories", JArray [entry; JString "not an entry"])]%string
           [] [] entry (mkHistory "Alice" [Some "In Development"]%string)
           [JString "not an entry"]).
  - reflexivity.
  - reflexivity.
  - constructor.
  - constructor.
  - eexists _, _, _. repeat split; try reflexivity.
    repeat (constructor; [eexists; split; reflexivity|]). constructor.
  - reflexivity.
  - discriminate.
Defined.

Lemma GetDeveloperNameFromLog_provenance_example :
  ∃ h, In h [mkHistory "Bob" [Some "Open"];
             mkHistory "Alice" [Some "In Development"]]%string
       ∧ enters_development h = true ∧ author h = "Alice"%string.
Proof.
  refine (proj1 (GetDeveloperNameFromLog_provenance example_parent
                   [mkHistory "Bob" [Some "Open"];
                    mkHistory "Alice" [Some "In Development"]]%string
                   "Alice" _ eq_refl) _); [|discriminate].
  eexists _, _. split; [reflexivity|]. split; [reflexivity|].
  repeat (constructor;
          [eexists _, _, _; repeat split; try reflexivity;
           repeat (constructor; [eexists; split; reflexivity|]); constructor |]).
  constructor.
Defined.

Lemma GetCustomFields_lower_case_example :
  ∃ catalog,
    GetCustomFields [encode_field (mkFieldDef true "Story Points" "CustomField_10016")]
    = Ok catalog
    ∧ catalog !! "story points"%string = Some "customfield_10016"%string
    ∧ lower_case_map catalog.
Proof.
  eexists. split; [reflexivity|]. split; [reflexivity|].
  apply (GetCustomFields_lower_case (L:=ASCII_lowering)
           [encode_field (mkFieldDef true "Story Points" "CustomField_10016")]
           _ ASCII_lowers_once).
  reflexivity.
Defined.

Lemma GetCustomFields_provenance_example :
  from_custom_field
    [encode_field (mkFieldDef false "Summary" "summary");
     encode_field (mkFieldDef true "Story Points" "customfield_10016")]
    "story points" "customfield_10016".
Proof.
  apply (GetCustomFields_provenance (L:=ASCII_lowering) _ {[ "story points"%string := "customfield_10016"%string ]});
    vm_compute; reflexivity.
Defined.

Lemma GetCustomFields_standard_only_example :
  GetCustomFields [encode_field (mkFieldDef false "Summary" "summary");
                   encode_field (mkFieldDef false "Status" "status")]
  = Ok ∅.
Proof.
  apply (GetCustomFields_standard_only (L:=ASCII_lowering) _
           [mkFieldDef false "Summary" "summary";
            mkFieldDef false "Status" "status"]).
  - repeat constructor.
  - repeat constructor.
Defined.

Lemma GetCustomFields_unique_custom_example :
  ∃ catalog,
    GetCustomFields [encode_field (mkFieldDef false "Summary" "summary");
                     encode_field (mkFieldDef true "Story Points" "customfield_10016");
                     encode_field (mkFieldDef true "Sprint" "customfield_10020")]
    = Ok catalog
    ∧ catalog !! "story points"%string = Some "customfield_10016"%string.
Proof.
  apply (GetCustomFields_unique_custom (L:=ASCII_lowering) _
           [mkFieldDef false "Summary" "summary"]
           [mkFieldDef true "Sprint" "customfield_10020"]
           (mkFieldDef true "Story Points" "customfield_10016")).
  - exact ASCII_lowers_once.
  - repeat constructor.
  - reflexivity.
  - repeat constructor; discriminate.
Defined.

Lemma GetCustomFields_malformed_entry_example :
  GetCustomFields
    [encode_field (mkFieldDef true "Story Points" "customfield_10016");
     [("id", JString "summary"); ("name", JString "Summary")];
     encode_field (mkFieldDef false "Status" "status")]
  = Panic InterfaceConversion.
Proof.
  apply (GetCustomFields_malformed_entry (L:=ASCII_lowering)
           [encode_field (mkFieldDef true "Story Points" "customfield_10016")]
           [encode_field (mkFieldDef false "Status" "status")]
           [mkFieldDef true "Story Points" "customfield_10016"]
           [("id", JString "summary"); ("name", JString "Summary")]%string).
  - repeat constructor.
  - left. discriminate.
Defined.

End FurtherExamples.
